(** * Crab8: a CHIP-8 interpreter, shallow embedding of [crab8-core]

    Values are [Z]: a [u8] lies in [0, 256), a [u16] in [0, 65536).
    Checked arithmetic ([+=], [-=] on unsigned integers, [ram[i]] indexing,
    slicing) is modelled as in a debug build: an overflow or an index out
    of range is a panic. *)

From Stdlib Require Import ZArith Lia Bool Ascii.
From stdpp Require Import base list.

Open Scope Z_scope.

(** ** Unsigned integer helpers (Rust's [u8] and [u16] methods) *)

Definition b2z (b : bool) : Z := if b then 1 else 0.

(** [u8::wrapping_add] *)
Definition wrapping_add_u8 (a b : Z) : Z := (a + b) mod 256.

(** [u8::overflowing_add] *)
Definition overflowing_add_u8 (a b : Z) : Z * bool :=
  ((a + b) mod 256, 255 <? a + b).

(** [u8::overflowing_sub] *)
Definition overflowing_sub_u8 (a b : Z) : Z * bool :=
  ((a - b) mod 256, a <? b).

(** [u8::overflowing_shr]: the shift amount is masked to the bit width, and
    the boolean reports whether the amount was at least the bit width. *)
Definition overflowing_shr_u8 (a n : Z) : Z * bool :=
  (Z.shiftr a (n mod 8), 8 <=? n).

(** [u8::overflowing_shl] *)
Definition overflowing_shl_u8 (a n : Z) : Z * bool :=
  ((Z.shiftl a (n mod 8)) mod 256, 8 <=? n).

(** [u16::overflowing_add] *)
Definition overflowing_add_u16 (a b : Z) : Z * bool :=
  ((a + b) mod 65536, 65535 <? a + b).

(** ** Indexing a fixed-size array *)

Definition arr_get (l : list Z) (i : Z) : option Z :=
  if 0 <=? i then l !! Z.to_nat i else None.

Definition arr_set (l : list Z) (i v : Z) : option (list Z) :=
  if (0 <=? i) && (i <? Z.of_nat (length l)) then Some (<[Z.to_nat i := v]> l)
  else None.

(** [&ram[lo .. hi]] *)
Definition arr_slice (l : list Z) (lo hi : Z) : option (list Z) :=
  if (0 <=? lo) && (lo <=? hi) && (hi <=? Z.of_nat (length l))
  then Some (firstn (Z.to_nat (hi - lo)) (skipn (Z.to_nat lo) l))
  else None.

(** ** [crab8-core/src/state.rs] *)

Record Chip8State := mkState {
  data_registers : list Z;   (* [u8; 16] *)
  index_register : Z;        (* u16 *)
  program_counter : Z;       (* u16 *)
  stack_pointer : Z;         (* u8 *)
  ram : list Z;              (* [u8; 4096] *)
  stack : list Z;            (* [u16; 256] *)
  delay_timer : Z;           (* u8 *)
  sound_timer : Z            (* u8 *)
}.

Definition default_state : Chip8State := {|
  data_registers := repeat 0 16;
  index_register := 0;
  program_counter := 0x200;
  stack_pointer := 0;
  ram := repeat 0 4096;
  stack := repeat 0 256;
  delay_timer := 0;
  sound_timer := 0 |}.

Definition set_registers (s : Chip8State) (r : list Z) : Chip8State :=
  mkState r s.(index_register) s.(program_counter) s.(stack_pointer)
    s.(ram) s.(stack) s.(delay_timer) s.(sound_timer).
Definition set_index (s : Chip8State) (i : Z) : Chip8State :=
  mkState s.(data_registers) i s.(program_counter) s.(stack_pointer)
    s.(ram) s.(stack) s.(delay_timer) s.(sound_timer).
Definition set_pc (s : Chip8State) (pc : Z) : Chip8State :=
  mkState s.(data_registers) s.(index_register) pc s.(stack_pointer)
    s.(ram) s.(stack) s.(delay_timer) s.(sound_timer).
Definition set_sp (s : Chip8State) (sp : Z) : Chip8State :=
  mkState s.(data_registers) s.(index_register) s.(program_counter) sp
    s.(ram) s.(stack) s.(delay_timer) s.(sound_timer).
Definition set_ram (s : Chip8State) (r : list Z) : Chip8State :=
  mkState s.(data_registers) s.(index_register) s.(program_counter)
    s.(stack_pointer) r s.(stack) s.(delay_timer) s.(sound_timer).
Definition set_stack (s : Chip8State) (st : list Z) : Chip8State :=
  mkState s.(data_registers) s.(index_register) s.(program_counter)
    s.(stack_pointer) s.(ram) st s.(delay_timer) s.(sound_timer).
Definition set_delay (s : Chip8State) (t : Z) : Chip8State :=
  mkState s.(data_registers) s.(index_register) s.(program_counter)
    s.(stack_pointer) s.(ram) s.(stack) t s.(sound_timer).
Definition set_sound (s : Chip8State) (t : Z) : Chip8State :=
  mkState s.(data_registers) s.(index_register) s.(program_counter)
    s.(stack_pointer) s.(ram) s.(stack) s.(delay_timer) t.

Definition FONT : list Z := [
  0xF0; 0x90; 0x90; 0x90; 0xF0; (* 0 *)
  0x20; 0x60; 0x20; 0x20; 0x70; (* 1 *)
  0xF0; 0x10; 0xF0; 0x80; 0xF0; (* 2 *)
  0xF0; 0x10; 0xF0; 0x10; 0xF0; (* 3 *)
  0x90; 0x90; 0xF0; 0x10; 0x10; (* 4 *)
  0xF0; 0x80; 0xF0; 0x10; 0xF0; (* 5 *)
  0xF0; 0x80; 0xF0; 0x90; 0xF0; (* 6 *)
  0xF0; 0x10; 0x20; 0x40; 0x40; (* 7 *)
  0xF0; 0x90; 0xF0; 0x90; 0xF0; (* 8 *)
  0xF0; 0x90; 0xF0; 0x10; 0xF0; (* 9 *)
  0xF0; 0x90; 0xF0; 0x90; 0x90; (* A *)
  0xE0; 0x90; 0xE0; 0x90; 0xE0; (* B *)
  0xF0; 0x80; 0x80; 0x80; 0xF0; (* C *)
  0xE0; 0x90; 0x90; 0x90; 0xE0; (* D *)
  0xF0; 0x80; 0xF0; 0x80; 0xF0; (* E *)
  0xF0; 0x80; 0xF0; 0x80; 0x80  (* F *)
].

(** [for (i, byte) in bytes.iter().enumerate() { ram[base + i] = *byte; }],
    with [i] counted from [i]. [None] is the out-of-range panic. *)
Fixpoint store_bytes (r : list Z) (base i : Z) (bytes : list Z) : option (list Z) :=
  match bytes with
  | [] => Some r
  | b :: rest =>
      match arr_set r (base + i) b with
      | Some r' => store_bytes r' base (i + 1) rest
      | None => None
      end
  end.

Definition load_font_data (s : Chip8State) (fonts : list Z) : option Chip8State :=
  match store_bytes s.(ram) 0 0 fonts with
  | Some r => Some (set_ram s r)
  | None => None
  end.

Definition load_program (s : Chip8State) (program : list Z) : option Chip8State :=
  match load_font_data s FONT with
  | Some s1 =>
      match store_bytes s1.(ram) 0x200 0 program with
      | Some r => Some (set_ram s1 r)
      | None => None
      end
  | None => None
  end.

(** [Chip8State::register]: the index is always a nibble (< 16) and the
    array has 16 entries, so Rust's bound check never fires here. *)
Definition register (s : Chip8State) (i : Z) : Z :=
  nth (Z.to_nat i) s.(data_registers) 0.

(** [*state.register_mut(i) = v] *)
Definition write_register (s : Chip8State) (i v : Z) : Chip8State :=
  set_registers s (<[Z.to_nat i := v]> s.(data_registers)).

(** [Chip8State::set_flag] *)
Definition set_flag (s : Chip8State) (flag : bool) : Chip8State :=
  write_register s 0xF (b2z flag).

(** ** Peripheral traits ([display.rs], [keyboard.rs], [beeper.rs])

    An [io::Result<T>] is an [option T]: [None] is an I/O error. *)

Class Chip8Display (D : Type) := {
  display_clear : D -> option D;
  display_draw : D -> Z -> Z -> list Z -> option (D * bool);
  display_flush : D -> option D
}.

Class Chip8Keyboard (K : Type) := {
  update_keystates : K -> Z -> option K;
  is_key_down : K -> Z -> bool;
  last_key_pressed : K -> option Z
}.

Class Chip8Beeper (B : Type) := {
  beeper_play : B -> B;
  beeper_pause : B -> B
}.

(** ** [crab8-core/src/interpreter.rs] *)

Inductive failure := IoError | Panic.

Section Interpreter.
Context {D K B : Type} `{Chip8Display D} `{Chip8Keyboard K} `{Chip8Beeper B}.

(** The interpreter's [self] (display, keyboard, beeper) together with the
    local [state] of [run_program]. *)
Record Machine := mkMachine {
  state : Chip8State;
  display : D;
  keyboard : K;
  beeper : B
}.

(** A state and error monad over the machine; a failure keeps the machine as
    it was when the failure happened. *)
Inductive result (A : Type) :=
| Ok (a : A) (m : Machine)
| Fail (f : failure) (m : Machine).
Arguments Ok {A}. Arguments Fail {A}.

Definition M (A : Type) := Machine -> result A.

Definition ret {A} (a : A) : M A := fun m => Ok a m.
Definition bind {A C} (x : M A) (k : A -> M C) : M C :=
  fun m => match x m with
           | Ok a m' => k a m'
           | Fail f m' => Fail f m'
           end.

Local Notation "'let*' x ':=' c1 'in' c2" := (bind c1 (fun x => c2))
  (at level 200, x name, c1 at level 100, c2 at level 200).
Local Notation "'do*' c1 'in' c2" := (bind c1 (fun _ => c2))
  (at level 200, c1 at level 100, c2 at level 200).

Definition get_state : M Chip8State := fun m => Ok m.(state) m.
Definition put_state (s : Chip8State) : M unit :=
  fun m => Ok tt (mkMachine s m.(display) m.(keyboard) m.(beeper)).
Definition modify_state (f : Chip8State -> Chip8State) : M unit :=
  let* s := get_state in put_state (f s).

Definition panic {A} : M A := fun m => Fail Panic m.

(** A Rust bound check or overflow check: [None] panics. *)
Definition checked {A} (o : option A) : M A :=
  fun m => match o with Some a => Ok a m | None => Fail Panic m end.

(** Checked [u8] / [u16] addition and subtraction ([+=], [-=]). *)
Definition add_checked (bits : Z) (a b : Z) : option Z :=
  if a + b <? 2 ^ bits then Some (a + b) else None.
Definition sub_checked (a b : Z) : option Z :=
  if b <=? a then Some (a - b) else None.

(** The [?] operator on a display call. *)
Definition with_display {A} (f : D -> option (D * A)) : M A :=
  fun m => match f m.(display) with
           | Some (d, a) => Ok a (mkMachine m.(state) d m.(keyboard) m.(beeper))
           | None => Fail IoError m
           end.

Definition clear_display : M unit :=
  with_display (fun d => match display_clear d with
                         | Some d' => Some (d', tt) | None => None end).
Definition flush_display : M unit :=
  with_display (fun d => match display_flush d with
                         | Some d' => Some (d', tt) | None => None end).
Definition draw_display (x y : Z) (data : list Z) : M bool :=
  with_display (fun d => display_draw d x y data).

Definition get_keyboard : M K := fun m => Ok m.(keyboard) m.
Definition update_keyboard (micros : Z) : M unit :=
  fun m => match update_keystates m.(keyboard) micros with
           | Some k => Ok tt (mkMachine m.(state) m.(display) k m.(beeper))
           | None => Fail IoError m
           end.
Definition modify_beeper (f : B -> B) : M unit :=
  fun m => Ok tt (mkMachine m.(state) m.(display) m.(keyboard) (f m.(beeper))).


(** ** Decoding: the four-nibble [match] of [run_program], in source order;
    the first pattern that matches wins. *)

Inductive Instr :=
| CLS | RET
| JP (address : Z) | CALL (address : Z)
| SE_NN (vx nn : Z) | SNE_NN (vx nn : Z) | SE_XY (vx vy : Z)
| LD_NN (vx nn : Z) | ADD_NN (vx nn : Z)
| LD_XY (vx vy : Z) | OR_XY (vx vy : Z) | AND_XY (vx vy : Z) | XOR_XY (vx vy : Z)
| ADD_XY (vx vy : Z) | SUB_XY (vx vy : Z) | SHR (vx : Z) | SUBN_XY (vx vy : Z)
| SHL (vx : Z) | SNE_XY (vx vy : Z)
| LD_I (address : Z) | JP_V0 (address : Z) | RND (vx nn : Z)
| DRW (vx vy n : Z) | SKP (vx : Z) | SKNP (vx : Z)
| LD_VX_DT (vx : Z) | LD_KEY (vx : Z) | LD_DT_VX (vx : Z) | LD_ST_VX (vx : Z)
| ADD_I (vx : Z) | LD_FONT (vx : Z) | BCD (vx : Z) | STORE (vx : Z) | LOAD (vx : Z).

(** A slice pattern: [Some v] is the literal [v], [None] is [_] or a
    binder. *)
Fixpoint pat_match (p : list (option Z)) (ns : list Z) : bool :=
  match p, ns with
  | [], [] => true
  | None :: p', _ :: ns' => pat_match p' ns'
  | Some v :: p', n :: ns' => (n =? v) && pat_match p' ns'
  | _, _ => false
  end.

Definition decode (n0 n1 n2 n3 address nn : Z) : option Instr :=
  let ns := [n0; n1; n2; n3] in
  let vx := n1 in let vy := n2 in
  if pat_match [Some 0x0; Some 0x0; Some 0xE; Some 0x0] ns then Some CLS
  else if pat_match [Some 0x0; Some 0x0; Some 0xE; Some 0xE] ns then Some RET
  else if pat_match [Some 0x1; None; None; None] ns then Some (JP address)
  else if pat_match [Some 0x2; None; None; None] ns then Some (CALL address)
  else if pat_match [Some 0x3; None; None; None] ns then Some (SE_NN vx nn)
  else if pat_match [Some 0x4; None; None; None] ns then Some (SNE_NN vx nn)
  else if pat_match [Some 0x5; None; None; Some 0x0] ns then Some (SE_XY vx vy)
  else if pat_match [Some 0x6; None; None; None] ns then Some (LD_NN vx nn)
  else if pat_match [Some 0x7; None; None; None] ns then Some (ADD_NN vx nn)
  else if pat_match [Some 0x8; None; None; Some 0x0] ns then Some (LD_XY vx vy)
  else if pat_match [Some 0x8; None; None; Some 0x1] ns then Some (OR_XY vx vy)
  else if pat_match [Some 0x8; None; None; Some 0x2] ns then Some (AND_XY vx vy)
  else if pat_match [Some 0x8; None; None; Some 0x3] ns then Some (XOR_XY vx vy)
  else if pat_match [Some 0x8; None; None; Some 0x4] ns then Some (ADD_XY vx vy)
  else if pat_match [Some 0x8; None; None; Some 0x5] ns then Some (SUB_XY vx vy)
  else if pat_match [Some 0x8; None; None; Some 0x6] ns then Some (SHR vx)
  else if pat_match [Some 0x8; None; None; Some 0x7] ns then Some (SUBN_XY vx vy)
  else if pat_match [Some 0x8; None; None; Some 0xE] ns then Some (SHL vx)
  else if pat_match [Some 0x9; None; None; Some 0x0] ns then Some (SNE_XY vx vy)
  else if pat_match [Some 0xA; None; None; None] ns then Some (LD_I address)
  else if pat_match [Some 0xB; None; None; None] ns then Some (JP_V0 address)
  else if pat_match [Some 0xC; None; None; None] ns then Some (RND vx nn)
  else if pat_match [Some 0xD; None; None; None] ns then Some (DRW vx vy n3)
  else if pat_match [Some 0xE; None; Some 0x9; Some 0xE] ns then Some (SKP vx)
  else if pat_match [Some 0xE; None; Some 0xA; Some 0x1] ns then Some (SKNP vx)
  else if pat_match [Some 0xF; None; Some 0x0; Some 0x7] ns then Some (LD_VX_DT vx)
  else if pat_match [Some 0xF; None; Some 0x0; Some 0xA] ns then Some (LD_KEY vx)
  else if pat_match [Some 0xF; None; Some 0x1; Some 0x5] ns then Some (LD_DT_VX vx)
  else if pat_match [Some 0xF; None; Some 0x1; Some 0x8] ns then Some (LD_ST_VX vx)
  else if pat_match [Some 0xF; None; Some 0x1; Some 0xE] ns then Some (ADD_I vx)
  else if pat_match [Some 0xF; None; Some 0x2; Some 0x9] ns then Some (LD_FONT vx)
  else if pat_match [Some 0xF; None; Some 0x3; Some 0x3] ns then Some (BCD vx)
  else if pat_match [Some 0xF; None; Some 0x5; Some 0x5] ns then Some (STORE vx)
  else if pat_match [Some 0xF; None; Some 0x6; Some 0x5] ns then Some (LOAD vx)
  else None.

(** The [//decode] block of [run_program] on the two fetched bytes. *)
Definition decode_word (byte_a byte_b : Z) : option Instr :=
  let nibble_0 := Z.shiftr (Z.land byte_a 0xF0) 4 in
  let nibble_1 := Z.land byte_a 0x0F in
  let nibble_2 := Z.shiftr (Z.land byte_b 0xF0) 4 in
  let nibble_3 := Z.land byte_b 0x0F in
  let address := Z.lor (Z.shiftl nibble_1 8) byte_b in
  let immediate_value := byte_b in
  decode nibble_0 nibble_1 nibble_2 nibble_3 address immediate_value.

(** ** Executing one decoded instruction *)

(** [state.program_counter += n] / [-= n] on the [u16] counter. *)
Definition add_pc (n : Z) : M unit :=
  let* s := get_state in
  let* pc := checked (add_checked 16 s.(program_counter) n) in
  put_state (set_pc s pc).
Definition sub_pc (n : Z) : M unit :=
  let* s := get_state in
  let* pc := checked (sub_checked s.(program_counter) n) in
  put_state (set_pc s pc).

Definition skip_if (c : bool) : M unit := if c then add_pc 2 else ret tt.

(** [0..=vx] *)
Definition range_incl (vx : Z) : list Z := map Z.of_nat (seq 0 (S (Z.to_nat vx))).

(** [ram[index] = v] *)
Definition write_ram (a v : Z) : M unit :=
  let* s := get_state in
  let* r := checked (arr_set s.(ram) a v) in
  put_state (set_ram s r).

(** Body of [for i in 0..=vx { ram[(index_register + i as u16) as usize] = register(i) }] *)
Fixpoint store_registers (is : list Z) : M unit :=
  match is with
  | [] => ret tt
  | i :: rest =>
      let* s := get_state in
      let* a := checked (add_checked 16 s.(index_register) i) in
      do* write_ram a (register s i) in
      store_registers rest
  end.

(** Body of [for i in 0..=vx { *register_mut(i) = ram[(index_register + i as u16) as usize] }] *)
Fixpoint load_registers (is : list Z) : M unit :=
  match is with
  | [] => ret tt
  | i :: rest =>
      let* s := get_state in
      let* a := checked (add_checked 16 s.(index_register) i) in
      let* v := checked (arr_get s.(ram) a) in
      do* put_state (write_register s i v) in
      load_registers rest
  end.

(** [random] is the byte [rng.gen::<u8>()] would return in this cycle. *)
Definition execute (random : Z) (instr : Instr) : M unit :=
  match instr with
  | CLS => clear_display
  | RET =>
      let* s := get_state in
      let* pc := checked (arr_get s.(stack) s.(stack_pointer)) in
      do* put_state (set_pc s pc) in
      let* sp := checked (sub_checked s.(stack_pointer) 1) in
      modify_state (fun s => set_sp s sp)
  | JP address => modify_state (fun s => set_pc s address)
  | CALL address =>
      let* s := get_state in
      let* sp := checked (add_checked 8 s.(stack_pointer) 1) in
      do* put_state (set_sp s sp) in
      let* st := checked (arr_set s.(stack) sp s.(program_counter)) in
      put_state (set_pc (set_stack (set_sp s sp) st) address)
  | SE_NN vx nn => let* s := get_state in skip_if (register s vx =? nn)
  | SNE_NN vx nn => let* s := get_state in skip_if (negb (register s vx =? nn))
  | SE_XY vx vy => let* s := get_state in skip_if (register s vx =? register s vy)
  | LD_NN vx nn => modify_state (fun s => write_register s vx nn)
  | ADD_NN vx nn =>
      modify_state (fun s => write_register s vx (wrapping_add_u8 (register s vx) nn))
  | LD_XY vx vy => modify_state (fun s => write_register s vx (register s vy))
  | OR_XY vx vy =>
      modify_state (fun s => write_register s vx (Z.lor (register s vx) (register s vy)))
  | AND_XY vx vy =>
      modify_state (fun s => write_register s vx (Z.land (register s vx) (register s vy)))
  | XOR_XY vx vy =>
      modify_state (fun s => write_register s vx (Z.lxor (register s vx) (register s vy)))
  | ADD_XY vx vy =>
      modify_state (fun s =>
        let (result, overflow) := overflowing_add_u8 (register s vx) (register s vy) in
        set_flag (write_register s vx result) overflow)
  | SUB_XY vx vy =>
      modify_state (fun s =>
        let (result, borrow) := overflowing_sub_u8 (register s vx) (register s vy) in
        set_flag (write_register s vx result) (negb borrow))
  | SHR vx =>
      modify_state (fun s =>
        let (result, borrow) := overflowing_shr_u8 (register s vx) 1 in
        set_flag (write_register s vx result) (negb borrow))
  | SUBN_XY vx vy =>
      modify_state (fun s =>
        let (result, borrow) := overflowing_sub_u8 (register s vy) (register s vx) in
        set_flag (write_register s vx result) (negb borrow))
  | SHL vx =>
      modify_state (fun s =>
        let (result, borrow) := overflowing_shl_u8 (register s vx) 1 in
        set_flag (write_register s vx result) (negb borrow))
  | SNE_XY vx vy => let* s := get_state in skip_if (negb (register s vx =? register s vy))
  | LD_I address => modify_state (fun s => set_index s address)
  | JP_V0 address =>
      let* s := get_state in
      let* pc := checked (add_checked 16 (register s 0x0) address) in
      put_state (set_pc s pc)
  | RND vx nn => modify_state (fun s => write_register s vx (Z.land nn random))
  | DRW vx vy n =>
      let* s := get_state in
      let x := register s vx in
      let y := register s vy in
      let* data := checked (arr_slice s.(ram) s.(index_register) (s.(index_register) + n)) in
      let* flag := draw_display x y data in
      modify_state (fun s => set_flag s flag)
  | SKP vx =>
      let* s := get_state in let* k := get_keyboard in
      skip_if (is_key_down k (register s vx))
  | SKNP vx =>
      let* s := get_state in let* k := get_keyboard in
      skip_if (negb (is_key_down k (register s vx)))
  | LD_VX_DT vx => modify_state (fun s => write_register s vx s.(delay_timer))
  | LD_KEY vx =>
      let* k := get_keyboard in
      match last_key_pressed k with
      | Some last_key => modify_state (fun s => write_register s vx last_key)
      | None => sub_pc 2
      end
  | LD_DT_VX vx => modify_state (fun s => set_delay s (register s vx))
  | LD_ST_VX vx => modify_state (fun s => set_sound s (register s vx))
  | ADD_I vx =>
      modify_state (fun s =>
        let (result, overflow) := overflowing_add_u16 s.(index_register) (register s vx) in
        set_flag (set_index s result) overflow)
  | LD_FONT vx => modify_state (fun s => set_index s (register s vx * 5))
  | BCD vx =>
      let* s := get_state in
      let value := register s vx in
      do* write_ram s.(index_register) (value / 100) in
      do* write_ram (s.(index_register) + 1) (value / 10 mod 10) in
      write_ram (s.(index_register) + 2) (value mod 10)
  | STORE vx => store_registers (range_incl vx)
  | LOAD vx => load_registers (range_incl vx)
  end.

(** The [_] arm: clear and flush the display, then [panic!]. *)
Definition unknown_instruction {A} : M A :=
  do* clear_display in
  do* flush_display in
  panic.

(** ** One iteration of the [loop] of [run_program]

    What the loop takes from its environment in one iteration: the byte
    [rng.gen::<u8>()] yields, whether [timer.tick()] fires, and the
    microseconds passed to [update_keystates]. *)
Record CycleInput := mkInput {
  random_byte : Z;
  timer_ticked : bool;
  time_left_micros : Z
}.

(** [if timer.tick() { ... }] *)
Definition timer_update (ticked : bool) : M unit :=
  if ticked then
    let* s := get_state in
    do* put_state (if 0 <? s.(delay_timer) then set_delay s (s.(delay_timer) - 1) else s) in
    let* s := get_state in
    do* (if 0 <? s.(sound_timer) then
           do* put_state (set_sound s (s.(sound_timer) - 1)) in
           modify_beeper beeper_play
         else modify_beeper beeper_pause) in
    flush_display
  else ret tt.

(** Fetch, decode, execute, timers, keyboard. The decoded instruction is
    returned so that a run can be observed instruction by instruction. *)
Definition cycle (input : CycleInput) : M Instr :=
  let* s := get_state in
  let* byte_a := checked (arr_get s.(ram) s.(program_counter)) in
  let* byte_b := checked (arr_get s.(ram) (s.(program_counter) + 1)) in
  let* pc := checked (add_checked 16 s.(program_counter) 2) in
  do* put_state (set_pc s pc) in
  let* instr :=
    match decode_word byte_a byte_b with
    | Some instr => do* execute input.(random_byte) instr in ret instr
    | None => unknown_instruction
    end in
  do* timer_update input.(timer_ticked) in
  do* update_keyboard input.(time_left_micros) in
  ret instr.

(** A finite prefix of the loop; each step is recorded as the program
    counter before the iteration, the instruction executed and the program
    counter after it. *)
Fixpoint run (inputs : list CycleInput) : M (list (Z * Instr * Z)) :=
  match inputs with
  | [] => ret []
  | input :: rest =>
      let* s := get_state in
      let* instr := cycle input in
      let* s' := get_state in
      let* trace := run rest in
      ret ((s.(program_counter), instr, s'.(program_counter)) :: trace)
  end.

End Interpreter.

Arguments Machine : clear implicits.
Arguments Ok {D K B A} a m.
Arguments Fail {D K B A} f m.

(** ** [CrossTermDisplay] ([src/main.rs]): the 64x32 framebuffer

    The terminal output [draw] queues after updating the framebuffer
    (the block-character rendering) reads the framebuffer but never writes
    it; it is left out, and queueing is taken to succeed. *)
Module CrossTerm.

Definition WIDTH : Z := 64.
Definition DISPLAY_LEN : Z := 64 * 32.

(** The inner [for j in 0..8] loop over one sprite row. [col = x + j] is a
    checked [u8] addition ([None] is its overflow panic); the [break] ends
    the row. *)
Fixpoint draw_row (js : list Z) (x row to_draw : Z) (disp : list bool)
    (pixel_cleared : bool) : option (list bool * bool) :=
  match js with
  | [] => Some (disp, pixel_cleared)
  | j :: js' =>
      if 255 <? x + j then None else
      let col := x + j in
      let flip := 0 <? Z.land to_draw (Z.shiftl 1 (7 - j)) in
      let display_index := row * WIDTH + col in
      if DISPLAY_LEN <=? display_index then Some (disp, pixel_cleared)
      else
        let old := nth (Z.to_nat display_index) disp false in
        let pixel_cleared := pixel_cleared || (old && flip) in
        draw_row js' x row to_draw
          (<[Z.to_nat display_index := xorb old flip]> disp) pixel_cleared
  end.

(** The outer [for (i, to_draw) in data.iter().enumerate()] loop. *)
Fixpoint draw_rows (data : list Z) (i x y : Z) (disp : list bool)
    (pixel_cleared : bool) : option (list bool * bool) :=
  match data with
  | [] => Some (disp, pixel_cleared)
  | to_draw :: rest =>
      match draw_row [0;1;2;3;4;5;6;7] x (y + i) to_draw disp pixel_cleared with
      | Some (disp', pc') => draw_rows rest (i + 1) x y disp' pc'
      | None => None
      end
  end.

Definition draw (disp : list bool) (x y : Z) (data : list Z) : option (list bool * bool) :=
  draw_rows data 0 x y disp false.

Definition blank : list bool := repeat false 2048.

(** [CrossTermDisplay] as a [Chip8Display], for running programs concretely:
    the framebuffer only. Writing to the terminal ([queue!], [flush]) is taken
    to succeed, and the panic of [draw] on a column past 255 surfaces as the
    failing outcome of [display_draw], the only one the interface has. The
    properties of [draw] itself are stated on [draw], not through this
    instance. *)
#[export] Instance crossterm_display : Chip8Display (list bool) := {
  display_clear := fun _ => Some blank;
  display_draw := draw;
  display_flush := fun d => Some d
}.

End CrossTerm.

(** ** Simple peripherals, used to run programs concretely *)
Module Peripherals.

(** A keyboard reporting at most one key, both as held and as last pressed. *)
#[export] Instance one_key_keyboard : Chip8Keyboard (option Z) := {
  update_keystates := fun k _ => Some k;
  is_key_down := fun k key => match k with Some k' => k' =? key | None => false end;
  last_key_pressed := fun k => k
}.

(** A beeper logging its calls: [true] for [play], [false] for [pause]. *)
#[export] Instance log_beeper : Chip8Beeper (list bool) := {
  beeper_play := fun l => l ++ [true];
  beeper_pause := fun l => l ++ [false]
}.

(** A display backend whose every call returns an I/O error. *)
#[export] Instance failing_display : Chip8Display unit := {
  display_clear := fun _ => None;
  display_draw := fun _ _ _ _ => None;
  display_flush := fun _ => None
}.

End Peripherals.

(** ** Observing a run *)

(** The stack slots in use are [stack[1] .. stack[stack_pointer]] ([2nnn]
    pre-increments the pointer); [frames] lists the return addresses they
    hold, innermost call first. *)
Definition frames (s : Chip8State) : list Z :=
  map (fun k => nth k s.(stack) 0) (rev (seq 1 (Z.to_nat s.(stack_pointer)))).

Definition wf_stack (s : Chip8State) : Prop :=
  length s.(stack) = 256%nat /\ 0 <= s.(stack_pointer) < 256.

(** Replays a trace of [run] against a stack of pending return addresses:
    a call at address [pc] pushes [pc + 2]; a return must land on the top
    address, which it pops. *)
Fixpoint returns_match (pending : list Z) (trace : list (Z * Instr * Z)) : bool :=
  match trace with
  | [] => true
  | (pc, CALL _, _) :: rest => returns_match ((pc + 2) :: pending) rest
  | (_, RET, pc') :: rest =>
      match pending with
      | r :: pending' => (pc' =? r) && returns_match pending' rest
      | [] => false
      end
  | _ :: rest => returns_match pending rest
  end.


Definition regs_ok {D K B : Type} (m : Machine D K B) : Prop :=
  length m.(state).(data_registers) = 16%nat.

(** The fields of the state that the timer block and the keyboard update
    leave alone. *)
Definition same_core (s s' : Chip8State) : Prop :=
  data_registers s' = data_registers s /\ index_register s' = index_register s /\
  program_counter s' = program_counter s /\ stack_pointer s' = stack_pointer s /\
  ram s' = ram s /\ stack s' = stack s.

(** ** Concrete machines *)

Section Concrete.
Import CrossTerm Peripherals.

(** A fresh interpreter state with the given registers, on a blank
    [CrossTermDisplay], a keyboard reporting [key] and an empty beeper log. *)
Definition machine_with (regs : list Z) (key : option Z) : Machine (list bool) (option Z) (list bool) :=
  mkMachine (set_registers default_state regs) blank key [].

(** [run_program]: load the program into a fresh state, then run [n]
    iterations of the loop without timer ticks; the final registers. *)
Definition boot (program : list Z) : option (Machine (list bool) (option Z) (list bool)) :=
  match load_program default_state program with
  | Some s => Some (mkMachine s blank None [])
  | None => None
  end.

Definition run_regs (program : list Z) (n : nat) : option (list Z) :=
  match boot program with
  | Some m =>
      match run (repeat (mkInput 0 false 0) n) m with
      | Ok _ m' => Some m'.(state).(data_registers)
      | Fail _ _ => None
      end
  | None => None
  end.

(** A machine with [program] loaded, on a blank display and a keyboard
    reporting [key]. *)
Definition machine_of (program : list Z) (key : option Z) : Machine (list bool) (option Z) (list bool) :=
  mkMachine (match load_program default_state program with
             | Some s => s | None => default_state end) blank key [].

(** Example machines. *)
Definition inp0 : CycleInput := mkInput 0 false 0.
Definition arith_example := machine_with ([200; 100] ++ repeat 0 14) None.
Definition vf_example := machine_with ([0; 100] ++ repeat 0 13 ++ [200]) None.
Definition wait_example := machine_of [0xF3; 0x0A] None.
Definition call_example := machine_of [0x22; 0x04; 0x00; 0x00; 0x00; 0xEE] None.
Definition store_example : Machine (list bool) (option Z) (list bool) :=
  mkMachine (set_index (set_registers default_state (map Z.of_nat (seq 1 16))) 0x300)
    blank None [].
Definition unknown_example := machine_of [0x00; 0x00] None.
Definition timer_example : Machine (list bool) (option Z) (list bool) :=
  mkMachine (set_sound (set_delay default_state 3) 2) blank None [].

(** The same, on the failing display backend. *)
Definition boot_failing (program : list Z) : option (Machine unit (option Z) (list bool)) :=
  match load_program default_state program with
  | Some s => Some (mkMachine s tt None [])
  | None => None
  end.

End Concrete.

(** ** [CrossTermKeyboard] ([src/main.rs]) *)
Module Keyboard.

(** The [KeyCode]s the program distinguishes; every other code is [OtherKey]. *)
Inductive KeyCode := Char (c : ascii) | Up | Down | Enter | Esc | OtherKey.

Inductive KeyEventKind := Press | Release | Repeat.

Inductive Event := Key (code : KeyCode) (kind : KeyEventKind) | OtherEvent.

Definition crossterm_keymap (keycode : KeyCode) : option Z :=
  match keycode with
  | Char "1" => Some 0x1
  | Char "2" => Some 0x2
  | Char "3" => Some 0x3
  | Char "4" => Some 0xC
  | Char "q" => Some 0x4
  | Char "w" => Some 0x5
  | Char "e" => Some 0x6
  | Char "r" => Some 0xD
  | Char "a" => Some 0x7
  | Char "s" => Some 0x8
  | Char "d" => Some 0x9
  | Char "f" => Some 0xE
  | Char "z" => Some 0xA
  | Char "x" => Some 0x0
  | Char "c" => Some 0xB
  | Char "v" => Some 0xF
  | _ => None
  end%char.

Record CrossTermKeyboard := mkKeyboard {
  key_states : Z;                (* u16 *)
  last_key_pressed : option Z    (* Option<u8> *)
}.

Definition new : CrossTermKeyboard := mkKeyboard 0 None.

(** The body of the polling loop for one event read by [event::read()]. *)
Definition handle_event (kb : CrossTermKeyboard) (ev : Event) : CrossTermKeyboard :=
  match ev with
  | Key code kind =>
      match crossterm_keymap code with
      | Some key =>
          match kind with
          | Press =>
              let last := if Z.land kb.(key_states) (Z.shiftl 1 key) =? 0 then Some key
                          else kb.(last_key_pressed) in
              mkKeyboard (Z.lor kb.(key_states) (Z.shiftl 1 key)) last
          | Release =>
              mkKeyboard (Z.land kb.(key_states) (Z.lxor 65535 (Z.shiftl 1 key)))
                kb.(last_key_pressed)
          | Repeat => kb
          end
      | None => kb
      end
  | OtherEvent => kb
  end.

(** What [event::poll] / [event::read] yield during the time window of one
    call: an event, or an I/O error ([?]). *)
Inductive Polled := Got (e : Event) | PollError.

(** [update_keystates]: [last_key_pressed] is reset, then the events of the
    window are handled in order; an I/O error is returned at once. *)
Fixpoint handle_events (kb : CrossTermKeyboard) (evs : list Polled) : option CrossTermKeyboard :=
  match evs with
  | [] => Some kb
  | Got e :: rest => handle_events (handle_event kb e) rest
  | PollError :: _ => None
  end.

Definition update_keystates (kb : CrossTermKeyboard) (evs : list Polled) : option CrossTermKeyboard :=
  handle_events (mkKeyboard kb.(key_states) None) evs.

(** [is_key_down]: [1 << key] on a [u16] overflows for [key >= 16], a panic
    in a debug build ([None]). *)
Definition is_key_down (kb : CrossTermKeyboard) (key : Z) : option bool :=
  if 16 <=? key then None else Some (0 <? Z.land kb.(key_states) (Z.shiftl 1 key)).

End Keyboard.

(** ** [rom_selector] ([src/main.rs]): one key press in the selection loop

    [len] is [paths.len()], [rows] the terminal height; [None] is a panic
    (an unsigned underflow, a remainder by zero or an index out of range). *)
Module Selector.
Import Keyboard.

Inductive NavResult :=
| Stay (selected_index scroll_value : Z)
| Selected (index : Z)
| Interrupted.

Definition nav_key (len rows selected_index scroll_value : Z) (code : KeyCode) : option NavResult :=
  match code with
  | Char "w"%char | Up =>
      let scroll_value :=
        if (scroll_value =? 0) && (selected_index =? 0) then Z.max (len - rows + 2) 0
        else if scroll_value =? selected_index then Z.max (scroll_value - 1) 0
        else scroll_value in
      if selected_index =? 0 then
        if len =? 0 then None else Some (Stay (len - 1) scroll_value)
      else Some (Stay (selected_index - 1) scroll_value)
  | Char "s"%char | Down =>
      if len =? 0 then None else
      let selected_index := (selected_index + 1) mod len in
      if selected_index =? 0 then Some (Stay selected_index 0)
      else if scroll_value + rows <? 2 then None
      else if scroll_value + rows - 2 <=? selected_index
      then Some (Stay selected_index (scroll_value + 1))
      else Some (Stay selected_index scroll_value)
  | Enter => if selected_index <? len then Some (Selected selected_index) else None
  | Esc => Some Interrupted
  | _ => Some (Stay selected_index scroll_value)
  end.

End Selector.

(** ** [Timer] ([crab8-core/src/interpreter.rs], [src/main.rs])

    Instants and durations in a common time unit. [Instant::elapsed]
    saturates at zero. *)
Module Timer.

Record Timer := mkTimer { interval : Z; last_tick : Z }.

Definition tick (t : Timer) (now : Z) : Timer * bool :=
  if t.(interval) <=? Z.max 0 (now - t.(last_tick))
  then (mkTimer t.(interval) (t.(last_tick) + t.(interval)), true)
  else (t, false).

(** [n] calls of [tick] at the same instant; the number that fire. *)
Fixpoint ticks (n : nat) (t : Timer) (now : Z) : Timer * nat :=
  match n with
  | O => (t, O)
  | S n' =>
      let (t', fired) := tick t now in
      let (t'', k) := ticks n' t' now in
      (t'', if fired then S k else k)
  end.

End Timer.

(** ** [#[opcode]] ([crab8-macros/src/lib.rs]): the generated struct name

    A function name is its sequence of [char]s, each a Unicode scalar value
    as [Z]; a [char] below 128 takes one byte in UTF-8, any other more than
    one. *)
Module OpcodeMacro.

Definition underscore : Z := 95.

(** [str::split("_")] *)
Fixpoint split_underscore (s : list Z) : list (list Z) :=
  match s with
  | [] => [[]]
  | c :: rest =>
      let parts := split_underscore rest in
      if Z.eq_dec c underscore then [] :: parts
      else match parts with
           | p :: ps => (c :: p) :: ps
           | [] => [[c]]
           end
  end.

(** [make_ascii_uppercase] on a one-byte [str] *)
Definition ascii_upper (c : Z) : Z :=
  if (97 <=? c) && (c <=? 122) then c - 32 else c.

(** [part.get_mut(0..1).unwrap().make_ascii_uppercase()]: [get_mut]
    returns [None] on an empty part, and when byte 1 is not a char boundary,
    that is when the first [char] takes more than one byte; [unwrap] then
    panics. *)
Definition capitalize (part : list Z) : option (list Z) :=
  match part with
  | [] => None
  | c :: rest => if c <? 128 then Some (ascii_upper c :: rest) else None
  end.

(** The [.fold] closure [|a, b| a + &b], applied to the parts the [.map]
    closure yields; a panic in [.map] ([None]) ends the macro. *)
Definition fold_step (acc : option (list Z)) (part : list Z) : option (list Z) :=
  match acc with
  | Some a => match capitalize part with
              | Some p => Some (a ++ p)
              | None => None
              end
  | None => None
  end.

(** [function_name.to_string().split("_").map(..).fold(String::new(), ..)] *)
Definition struct_name (function_name : list Z) : option (list Z) :=
  fold_left fold_step (split_underscore function_name) (Some []).

End OpcodeMacro.

(** ** More concrete machines *)

Section MoreConcrete.
Import CrossTerm Peripherals.

(** Machines at the edges of memory and of the stack. *)
Definition high_index_example : Machine (list bool) (option Z) (list bool) :=
  mkMachine (set_index default_state 4095) blank None [].
Definition full_stack_example : Machine (list bool) (option Z) (list bool) :=
  mkMachine (set_sp default_state 255) blank None [].
Definition pc_end_example : Machine (list bool) (option Z) (list bool) :=
  mkMachine (set_pc default_state 4095) blank None [].
End MoreConcrete.

(** * Properties *)

Import CrossTerm Peripherals.

(** ** Registers *)

Lemma length_write_register s i v :
  length (data_registers (write_register s i v)) = length (data_registers s).
Proof. unfold write_register, set_registers; simpl. apply length_insert. Qed.

Lemma register_write_same s i v :
  0 <= i -> (Z.to_nat i < length (data_registers s))%nat ->
  register (write_register s i v) i = v.
Proof.
  intros _ Hl. unfold register, write_register, set_registers; simpl.
  rewrite nth_lookup, list_lookup_insert_eq by lia. reflexivity.
Qed.

Lemma register_write_other s i j v :
  0 <= i -> 0 <= j -> i <> j ->
  register (write_register s i v) j = register s j.
Proof.
  intros Hi Hj Hne. unfold register, write_register, set_registers; simpl.
  rewrite !nth_lookup, list_lookup_insert_ne by lia. reflexivity.
Qed.

Lemma register_set_flag_15 s f :
  length (data_registers s) = 16%nat -> register (set_flag s f) 15 = b2z f.
Proof. intros Hl. unfold set_flag. apply register_write_same; lia. Qed.

Lemma register_set_flag_other s f j :
  0 <= j -> j <> 15 -> register (set_flag s f) j = register s j.
Proof. intros. unfold set_flag. apply register_write_other; lia. Qed.

Section Arithmetic.
Context {D K B : Type} `{Chip8Display D} `{Chip8Keyboard K} `{Chip8Beeper B}.

(** Claim C7, amended. [8xy4] and [8xy5] never fail; [VF] ends up holding the
    carry / no-borrow flag for every destination [x], and a destination other
    than [VF] holds the wrapped result. With [x = 15] the flag store comes
    last, so [VF] holds only the flag. *)
Theorem add_sub_xy_semantics (r : Z) (m : Machine D K B) (x y a b : Z) :
  regs_ok m -> 0 <= x < 16 -> 0 <= y < 16 ->
  register m.(state) x = a -> register m.(state) y = b ->
  (exists m', execute r (ADD_XY x y) m = Ok tt m' /\
     (x <> 15 -> register m'.(state) x = (a + b) mod 256) /\
     register m'.(state) 15 = (if a + b >? 255 then 1 else 0)) /\
  (exists m', execute r (SUB_XY x y) m = Ok tt m' /\
     (x <> 15 -> register m'.(state) x = (a - b) mod 256) /\
     register m'.(state) 15 = (if a >=? b then 1 else 0)).
Proof.
  unfold regs_ok. intros Hl Hx Hy Ha Hb. subst a b.
  split; eexists; (split; [reflexivity|]); simpl state;
    (split; [intros Hne; rewrite register_set_flag_other by lia;
             apply register_write_same; lia
            | rewrite register_set_flag_15 by (rewrite length_write_register; lia)]).
  - unfold b2z. destruct (255 <? _) eqn:E1, (_ >? 255) eqn:E2; lia.
  - unfold b2z. destruct (_ <? _) eqn:E1, (_ >=? _) eqn:E2; simpl; lia.
Qed.

(** Claim C10. With [x = 15] the flag store comes after the result store, so [VF]
    ends up holding the flag of each of the five flag-writing instructions. *)
Theorem flag_overwrites_vf (r : Z) (m : Machine D K B) (y a b : Z) :
  regs_ok m -> 0 <= y < 16 ->
  register m.(state) 15 = a -> register m.(state) y = b ->
  (exists m', execute r (ADD_XY 15 y) m = Ok tt m' /\
     register m'.(state) 15 = (if a + b >? 255 then 1 else 0)) /\
  (exists m', execute r (SUB_XY 15 y) m = Ok tt m' /\
     register m'.(state) 15 = (if a >=? b then 1 else 0)) /\
  (exists m', execute r (SHR 15) m = Ok tt m' /\ register m'.(state) 15 = 1) /\
  (exists m', execute r (SUBN_XY 15 y) m = Ok tt m' /\
     register m'.(state) 15 = (if b >=? a then 1 else 0)) /\
  (exists m', execute r (SHL 15) m = Ok tt m' /\ register m'.(state) 15 = 1).
Proof.
  unfold regs_ok. intros Hl Hy Ha Hb. subst a b.
  repeat split; eexists; (split; [reflexivity|]); simpl state;
    rewrite register_set_flag_15 by (rewrite length_write_register; lia);
    unfold b2z; try reflexivity.
  - destruct (255 <? _) eqn:E1, (_ >? 255) eqn:E2; lia.
  - destruct (_ <? _) eqn:E1, (_ >=? _) eqn:E2; simpl; lia.
  - destruct (_ <? _) eqn:E1, (_ >=? _) eqn:E2; simpl; lia.
Qed.

End Arithmetic.


(** ** Shifts *)

(** Claim C1. [8xy6] and [8xyE] compute [Vx >> 1] and [(Vx << 1) mod 256],
    but [VF] is not the bit shifted out: [overflowing_shr(1)] and
    [overflowing_shl(1)] on a [u8] report whether the shift amount is at
    least 8, which is never the case, so [VF] is always 1. Running
    [V0 = 2; V0 >>= 1] gives [VF = 1] while bit 0 of 2 is 0, and
    [V0 = 1; V0 <<= 1] gives [VF = 1] while bit 7 of 1 is 0. *)
Theorem shift_flag_is_not_shifted_bit :
  run_regs [0x60; 0x02; 0x80; 0x06] 2 = Some ([1] ++ repeat 0 14 ++ [1]) /\
  Z.testbit 2 0 = false /\
  run_regs [0x60; 0x01; 0x80; 0x0E] 2 = Some ([2] ++ repeat 0 14 ++ [1]) /\
  Z.testbit 1 7 = false.
Proof. repeat split; vm_compute; reflexivity. Qed.

(** ** Sprite clipping *)

(** Claim C3. [CrossTermDisplay::draw] only drops a pixel whose flat index
    [row * 64 + col] is past the end of the framebuffer; a pixel past the
    right edge lands on the next row. A row of 8 pixels at [(60, 0)] lights
    index 64, column 0 of row 1, with its fifth pixel (column 64). *)
Theorem draw_wraps_past_right_edge :
  exists d, CrossTerm.draw CrossTerm.blank 60 0 [0xFF] = Some (d, false) /\
            d !! 64%nat = Some true /\ CrossTerm.blank !! 64%nat = Some false.
Proof. eexists. split; [reflexivity | split; vm_compute; reflexivity]. Qed.

(** ** Arithmetic with [VF] as destination *)

(** Claim C7, as stated for every destination: with [x = 15], [a = 200],
    [b = 100], [8F14] leaves [VF = 1], not [(a + b) mod 256 = 44]. *)
Lemma add_xy_vf_destination_counterexample :
  run_regs [0x6F; 200; 0x61; 100; 0x8F; 0x14] 3 = Some ([0; 100] ++ repeat 0 13 ++ [1]) /\
  (200 + 100) mod 256 = 44 /\ 44 <> 1.
Proof. split; [vm_compute; reflexivity | split; [reflexivity | lia]]. Qed.

(** ** Loading *)

Lemma store_bytes_spec (bytes : list Z) : forall (r r' : list Z) (base i : Z),
  0 <= base -> 0 <= i -> store_bytes r base i bytes = Some r' ->
  length r' = length r /\
  (forall k, (k < length bytes)%nat ->
     r' !! (Z.to_nat (base + i) + k)%nat = bytes !! k) /\
  (forall a, (a < Z.to_nat (base + i) \/ Z.to_nat (base + i) + length bytes <= a)%nat ->
     r' !! a = r !! a).
Proof.
  induction bytes as [|b rest IH]; intros r r' base i Hb Hi Hs; simpl in Hs.
  - injection Hs as <-. repeat split; intros; simpl in *; try lia; reflexivity.
  - unfold arr_set in Hs.
    destruct ((0 <=? base + i) && (base + i <? Z.of_nat (length r))) eqn:E;
      [|discriminate].
    apply andb_true_iff in E as [_ E]. apply Z.ltb_lt in E.
    destruct (IH _ _ base (i + 1) Hb ltac:(lia) Hs) as (Hlen & Hin & Hout).
    rewrite length_insert in Hlen.
    repeat split; [exact Hlen | |].
    + intros [|k] Hk; simpl in Hk.
      * rewrite Hout by lia. rewrite Nat.add_0_r, list_lookup_insert_eq by lia.
        reflexivity.
      * replace (Z.to_nat (base + i) + S k)%nat with (Z.to_nat (base + (i + 1)) + k)%nat
          by lia.
        apply Hin. lia.
    + intros a Ha. simpl in Ha. rewrite Hout by lia.
      apply list_lookup_insert_ne. lia.
Qed.

(** Claim C2. After [load_program] completes on a 4096-byte memory, bytes
    0 to 79 hold the font table, so the glyph of digit [d] is the five bytes
    from address [5 * d], and the program bytes are at [0x200] onwards. *)
Theorem load_program_layout (s s' : Chip8State) (program : list Z) :
  length s.(ram) = 4096%nat -> load_program s program = Some s' ->
  length s'.(ram) = 4096%nat /\
  (forall i, (i < 80)%nat -> s'.(ram) !! i = FONT !! i) /\
  (forall d k, (d < 16)%nat -> (k < 5)%nat ->
     s'.(ram) !! (5 * d + k)%nat = FONT !! (5 * d + k)%nat) /\
  (forall i, (i < length program)%nat -> s'.(ram) !! (512 + i)%nat = program !! i).
Proof.
  intros Hlen Hload. unfold load_program, load_font_data in Hload.
  destruct (store_bytes (ram s) 0 0 FONT) as [r1|] eqn:E1; [|discriminate].
  simpl in Hload.
  destruct (store_bytes r1 512 0 program) as [r2|] eqn:E2; [|discriminate].
  injection Hload as <-. simpl.
  destruct (store_bytes_spec FONT (ram s) r1 0 0 ltac:(lia) ltac:(lia) E1) as (L1 & In1 & _).
  destruct (store_bytes_spec program r1 r2 512 0 ltac:(lia) ltac:(lia) E2) as (L2 & In2 & Out2).
  assert (HF : forall i, (i < 80)%nat -> r2 !! i = FONT !! i).
  { intros i Hi. rewrite Out2 by (simpl; lia). apply (In1 i). exact Hi. }
  repeat split.
  - lia.
  - exact HF.
  - intros d k Hd Hk. apply HF. lia.
  - intros i Hi. apply (In2 i). exact Hi.
Qed.

(** ** Running the monad *)

(** Take apart a successful run of a computation in [M]. *)
Ltac crunch_M :=
  repeat (match goal with
  | H : Fail _ _ = Ok _ _ |- _ => discriminate H
  | H : Ok _ _ = Fail _ _ |- _ => discriminate H
  | H : Ok _ _ = Ok _ _ |- _ => injection H; clear H; intros; subst
  | H : Some _ = Some _ |- _ => injection H; clear H; intros; subst
  | H : None = Some _ |- _ => discriminate H
  | H : Some _ = None |- _ => discriminate H
  | H : context [match ?e with _ => _ end] |- _ => destruct e eqn:?
  end; simpl in * ).

(** Split a nibble [0 <= x < 16] into its sixteen values. *)
Ltac nibble_cases x :=
  let Hx := fresh "Hx" in
  assert (Hx : x = 0 \/ x = 1 \/ x = 2 \/ x = 3 \/ x = 4 \/ x = 5 \/ x = 6 \/
               x = 7 \/ x = 8 \/ x = 9 \/ x = 10 \/ x = 11 \/ x = 12 \/ x = 13 \/
               x = 14 \/ x = 15) by lia;
  repeat destruct Hx as [-> | Hx]; [..| subst x].

Section CycleFrame.
Context {D K B : Type} `{Chip8Display D} `{Chip8Keyboard K} `{Chip8Beeper B}.

Lemma timer_update_core (t : bool) (m m' : Machine D K B) u :
  timer_update t m = Ok u m' -> same_core m.(state) m'.(state).
Proof.
  unfold timer_update, bind, get_state, put_state, modify_beeper, flush_display,
    with_display, ret.
  intros Hm. destruct m as [s d k b]. unfold same_core.
  crunch_M; repeat split.
Qed.

Lemma update_keyboard_core (t : Z) (m m' : Machine D K B) u :
  update_keyboard t m = Ok u m' -> same_core m.(state) m'.(state).
Proof.
  unfold update_keyboard. intros Hm. destruct m as [s d k b]. unfold same_core.
  crunch_M; repeat split.
Qed.

(** A successful iteration: fetch, decode, execute, timer block, keyboard. *)
Lemma cycle_ok (inp : CycleInput) (m m' : Machine D K B) (ins : Instr) :
  cycle inp m = Ok ins m' ->
  exists byte_a byte_b pc m1 m2,
    arr_get m.(state).(ram) m.(state).(program_counter) = Some byte_a /\
    arr_get m.(state).(ram) (m.(state).(program_counter) + 1) = Some byte_b /\
    add_checked 16 m.(state).(program_counter) 2 = Some pc /\
    decode_word byte_a byte_b = Some ins /\
    execute inp.(random_byte) ins
      (mkMachine (set_pc m.(state) pc) m.(display) m.(keyboard) m.(beeper)) = Ok tt m1 /\
    timer_update inp.(timer_ticked) m1 = Ok tt m2 /\
    update_keyboard inp.(time_left_micros) m2 = Ok tt m'.
Proof.
  unfold cycle, bind, get_state, put_state, checked, ret, unknown_instruction.
  intros Hc. destruct m as [s d k b]. simpl in *.
  destruct (arr_get (ram s) (program_counter s)) as [ba|] eqn:Ea; [|discriminate].
  destruct (arr_get (ram s) (program_counter s + 1)) as [bb|] eqn:Eb; [|discriminate].
  destruct (add_checked 16 (program_counter s) 2) as [pc|] eqn:Ep; [|discriminate].
  destruct (decode_word ba bb) as [i|] eqn:Ed.
  - destruct (execute (random_byte inp) i _) as [[] m1|] eqn:Ee; [|discriminate].
    destruct (timer_update (timer_ticked inp) m1) as [[] m2|] eqn:Et; [|discriminate].
    destruct (update_keyboard (time_left_micros inp) m2) as [[] m3|] eqn:Ek; [|discriminate].
    inversion Hc; subst. exists ba, bb, pc, m1, m2. auto 10.
  - cbv [bind clear_display flush_display with_display panic] in Hc. crunch_M.
Qed.

End CycleFrame.

Lemma decode_word_Fx0A (x : Z) :
  0 <= x < 16 -> decode_word (0xF0 + x) 0x0A = Some (LD_KEY x).
Proof. intros Hx. nibble_cases x; reflexivity. Qed.

Lemma add_checked_16 (a b c : Z) : add_checked 16 a b = Some c -> c = a + b.
Proof. unfold add_checked. destruct (_ <? _); congruence. Qed.

Lemma same_core_register (s s' : Chip8State) (i : Z) :
  same_core s s' -> register s' i = register s i.
Proof. intros (Hr & _). unfold register. now rewrite Hr. Qed.

Section WaitKey.
Context {D K B : Type} `{Chip8Display D} `{Chip8Keyboard K} `{Chip8Beeper B}.

(** Claim C4. A cycle that fetches [Fx0A] while the keyboard reports no key
    ends with the program counter where it started; with a key, [Vx] holds
    its code and the counter has moved past the instruction. *)
Theorem wait_for_key_cycle (inp : CycleInput) (m m' : Machine D K B) (x : Z) (ins : Instr) :
  0 <= x < 16 -> regs_ok m ->
  arr_get m.(state).(ram) m.(state).(program_counter) = Some (0xF0 + x) ->
  arr_get m.(state).(ram) (m.(state).(program_counter) + 1) = Some 0x0A ->
  cycle inp m = Ok ins m' ->
  ins = LD_KEY x /\
  (last_key_pressed m.(keyboard) = None ->
     m'.(state).(program_counter) = m.(state).(program_counter)) /\
  (forall key, last_key_pressed m.(keyboard) = Some key ->
     m'.(state).(program_counter) = m.(state).(program_counter) + 2 /\
     register m'.(state) x = key).
Proof.
  unfold regs_ok. intros Hx Hl Ha Hb Hc.
  destruct (cycle_ok _ _ _ _ Hc) as (ba & bb & pc & m1 & m2 & Ea & Eb & Ep & Ed & Ee & Et & Ek).
  rewrite Ha in Ea. rewrite Hb in Eb. injection Ea as <-. injection Eb as <-.
  rewrite decode_word_Fx0A in Ed by lia. injection Ed as <-.
  apply add_checked_16 in Ep. subst pc.
  pose proof (timer_update_core _ _ _ _ Et) as C1.
  pose proof (update_keyboard_core _ _ _ _ Ek) as C2.
  destruct C1 as (R1 & _ & P1 & _), C2 as (R2 & _ & P2 & _).
  destruct m as [s d k b]. simpl in *.
  split; [reflexivity|].
  cbv [execute get_keyboard bind modify_state get_state put_state sub_pc
       checked sub_checked ret] in Ee.
  crunch_M.
  - split; [intros; congruence|].
    intros key Hk. assert (Hz : z = key) by congruence. subst z.
    split; [lia|].
    unfold register. rewrite R2, R1, nth_lookup, list_lookup_insert_eq by lia.
    reflexivity.
  - split; [intros _; lia | intros; congruence].
Qed.

End WaitKey.

Section Timers.
Context {D K B : Type} `{Chip8Display D} `{Chip8Keyboard K} `{Chip8Beeper B}.

(** Claim C9. On a tick, each timer goes down by one when nonzero and stays
    at 0 when zero; the beeper plays when the sound timer is nonzero and
    pauses otherwise; the display is flushed, and a flush error is
    returned. *)
Theorem timer_tick_semantics (m : Machine D K B) :
  0 <= m.(state).(delay_timer) -> 0 <= m.(state).(sound_timer) ->
  exists s',
    same_core m.(state) s' /\
    delay_timer s' = (if m.(state).(delay_timer) =? 0 then 0 else m.(state).(delay_timer) - 1) /\
    sound_timer s' = (if m.(state).(sound_timer) =? 0 then 0 else m.(state).(sound_timer) - 1) /\
    0 <= delay_timer s' /\ 0 <= sound_timer s' /\
    timer_update true m =
      (let b' := if m.(state).(sound_timer) =? 0 then beeper_pause m.(beeper)
                 else beeper_play m.(beeper) in
       match display_flush m.(display) with
       | Some d' => Ok tt (mkMachine s' d' m.(keyboard) b')
       | None => Fail IoError (mkMachine s' m.(display) m.(keyboard) b')
       end).
Proof.
  destruct m as [s d k b]. simpl. intros Hd Hs.
  assert (Ed0 : (delay_timer s =? 0) = negb (0 <? delay_timer s))
    by (destruct (_ =? _) eqn:?, (_ <? _) eqn:?; simpl; lia).
  assert (Es0 : (sound_timer s =? 0) = negb (0 <? sound_timer s))
    by (destruct (_ =? _) eqn:?, (_ <? _) eqn:?; simpl; lia).
  rewrite Ed0, Es0.
  cbv [timer_update bind get_state put_state modify_beeper flush_display
       with_display ret].
  simpl.
  destruct (0 <? delay_timer s) eqn:Ed, (0 <? sound_timer s) eqn:Es;
    simpl; rewrite ?Es;
    [exists (set_sound (set_delay s (delay_timer s - 1)) (sound_timer s - 1))
    |exists (set_delay s (delay_timer s - 1))
    |exists (set_sound s (sound_timer s - 1))
    |exists s];
    unfold same_core; simpl; repeat split;
    try (destruct (display_flush d); reflexivity); lia.
Qed.

End Timers.

(** ** [Fx55] and [Fx65] *)

Lemma in_range_incl (x i : Z) : 0 <= x -> In i (range_incl x) <-> 0 <= i <= x.
Proof.
  intros Hx. unfold range_incl. rewrite in_map_iff. split.
  - intros (n & <- & Hn). apply in_seq in Hn. lia.
  - intros Hi. exists (Z.to_nat i). split; [lia|]. apply in_seq. lia.
Qed.

Lemma add_checked_16_ok (a b : Z) : a + b < 65536 -> add_checked 16 a b = Some (a + b).
Proof. intros Hab. unfold add_checked. replace (2 ^ 16) with 65536 by reflexivity.
  destruct (_ <? _) eqn:E; [reflexivity | lia]. Qed.

Lemma arr_set_ok (l : list Z) (i v : Z) :
  0 <= i < Z.of_nat (length l) -> arr_set l i v = Some (<[Z.to_nat i := v]> l).
Proof. intros Hi. unfold arr_set. destruct (_ && _) eqn:E; [reflexivity|].
  apply andb_false_iff in E as [E|E]; lia. Qed.

Lemma arr_get_ok (l : list Z) (i : Z) :
  0 <= i < Z.of_nat (length l) -> arr_get l i = Some (nth (Z.to_nat i) l 0).
Proof. intros Hi. unfold arr_get. destruct (0 <=? i) eqn:E; [|lia].
  rewrite nth_lookup. destruct (lookup_lt_is_Some_2 l (Z.to_nat i)) as [v Hv]; [lia|].
  rewrite Hv. reflexivity. Qed.

Section StoreLoad.
Context {D K B : Type} `{Chip8Display D} `{Chip8Keyboard K} `{Chip8Beeper B}.

Lemma store_registers_spec (is : list Z) : forall (s : Chip8State) (d : D) (k : K) (b : B),
  (forall i, In i is -> 0 <= i /\ index_register s + i < Z.of_nat (length (ram s))) ->
  0 <= index_register s -> (length (ram s) <= 4096)%nat ->
  exists r', store_registers is (mkMachine s d k b) = Ok tt (mkMachine (set_ram s r') d k b) /\
    length r' = length (ram s) /\
    (forall i, In i is -> r' !! Z.to_nat (index_register s + i) = Some (register s i)) /\
    (forall a, (forall i, In i is -> a <> Z.to_nat (index_register s + i)) ->
       r' !! a = ram s !! a).
Proof.
  induction is as [|i rest IH]; intros s d k b His HI Hlen.
  - exists (ram s). split; [destruct s; reflexivity|]. repeat split; simpl; tauto.
  - destruct (His i (or_introl eq_refl)) as [Hi0 Hi1].
    set (r1 := <[Z.to_nat (index_register s + i) := register s i]> (ram s)).
    destruct (IH (set_ram s r1) d k b) as (r' & Hrun & Hl & Hin & Hout).
    { intros j Hj. simpl. subst r1. rewrite length_insert.
      apply His. right. exact Hj. }
    { exact HI. }
    { simpl. subst r1. rewrite length_insert. exact Hlen. }
    exists r'. split.
    + cbn [store_registers]. cbv [bind get_state checked write_ram put_state].
      cbn. rewrite add_checked_16_ok by lia. cbn. rewrite arr_set_ok by lia.
      exact Hrun.
    + simpl in *. subst r1. rewrite length_insert in Hl.
      split; [exact Hl|]. split.
      * intros j [-> | Hj]; [|apply Hin, Hj].
        destruct (in_dec Z.eq_dec j rest) as [Hjr | Hjr]; [apply Hin, Hjr|].
        rewrite Hout.
        -- apply list_lookup_insert_eq. lia.
        -- intros i' Hi' Heq. destruct (His i' (or_intror Hi')). assert (i' = j) by lia.
           subst. contradiction.
      * intros a Ha. rewrite Hout.
        -- apply list_lookup_insert_ne. intros Heq. apply (Ha i (or_introl eq_refl)). lia.
        -- intros j Hj. apply Ha. right. exact Hj.
Qed.

Lemma load_registers_spec (is : list Z) : forall (s : Chip8State) (d : D) (k : K) (b : B),
  (forall i, In i is -> 0 <= i < 16 /\ index_register s + i < Z.of_nat (length (ram s))) ->
  0 <= index_register s -> (length (ram s) <= 4096)%nat ->
  length (data_registers s) = 16%nat ->
  exists regs', load_registers is (mkMachine s d k b) =
                  Ok tt (mkMachine (set_registers s regs') d k b) /\
    length regs' = 16%nat /\
    (forall j, In j is ->
       nth (Z.to_nat j) regs' 0 = nth (Z.to_nat (index_register s + j)) (ram s) 0) /\
    (forall j, 0 <= j -> ~ In j is -> nth (Z.to_nat j) regs' 0 = register s j).
Proof.
  induction is as [|i rest IH]; intros s d k b His HI Hlen Hregs.
  - exists (data_registers s). split; [destruct s; reflexivity|].
    split; [exact Hregs|]. split; [intros j []|]. intros; reflexivity.
  - destruct (His i (or_introl eq_refl)) as [Hi0 Hi1].
    set (v := nth (Z.to_nat (index_register s + i)) (ram s) 0).
    destruct (IH (write_register s i v) d k b) as (regs' & Hrun & Hl & Hin & Hout).
    { intros j Hj. apply His. right. exact Hj. }
    { exact HI. }
    { exact Hlen. }
    { rewrite length_write_register. exact Hregs. }
    exists regs'. split.
    + cbn [load_registers]. cbv [bind get_state checked put_state].
      cbn. rewrite add_checked_16_ok by lia. cbn. rewrite arr_get_ok by lia.
      exact Hrun.
    + split; [exact Hl|]. split.
      * intros j [-> | Hj]; [|apply Hin, Hj].
        destruct (in_dec Z.eq_dec j rest) as [Hjr | Hjr]; [apply Hin, Hjr|].
        rewrite Hout; [| lia | exact Hjr]. apply register_write_same; lia.
      * intros j Hj Hnin. rewrite Hout.
        -- apply register_write_other; [lia | exact Hj |].
           intros ->. apply Hnin. left. reflexivity.
        -- exact Hj.
        -- intros Hr. apply Hnin. right. exact Hr.
Qed.

(** Claim C6. [Fx55] followed by [Fx65] with the same index register gives
    back [V0] to [Vx], when the addresses [I .. I + x] are inside the
    4096-byte memory. *)
Theorem store_load_roundtrip (r1 r2 : Z) (m : Machine D K B) (x : Z) :
  0 <= x < 16 -> regs_ok m -> length m.(state).(ram) = 4096%nat ->
  0 <= m.(state).(index_register) -> m.(state).(index_register) + x < 4096 ->
  exists m1 m2, execute r1 (STORE x) m = Ok tt m1 /\ execute r2 (LOAD x) m1 = Ok tt m2 /\
    forall i, 0 <= i <= x -> register m2.(state) i = register m.(state) i.
Proof.
  unfold regs_ok. destruct m as [s d k b]. simpl. intros Hx Hregs Hlen HI HIx.
  destruct (store_registers_spec (range_incl x) s d k b) as (r' & Hst & Hl' & Hin & _).
  { intros i Hi. apply in_range_incl in Hi; lia. }
  { exact HI. }
  { lia. }
  destruct (load_registers_spec (range_incl x) (set_ram s r') d k b)
    as (regs' & Hld & _ & Hin' & _).
  { intros i Hi. apply in_range_incl in Hi; simpl; lia. }
  { exact HI. }
  { simpl. lia. }
  { exact Hregs. }
  eexists _, _. split; [exact Hst|]. split; [exact Hld|].
  intros i Hi. simpl.
  assert (HiR : In i (range_incl x)) by (apply in_range_incl; lia).
  unfold register at 1. simpl. rewrite (Hin' i HiR). simpl.
  apply nth_lookup_Some. apply Hin. exact HiR.
Qed.

End StoreLoad.

(** ** Unknown instructions *)

Section Unknown.
Context {D K B : Type} `{Chip8Display D} `{Chip8Keyboard K} `{Chip8Beeper B}.

(** Claim C8, amended. A fetched word that decodes to no instruction makes
    the cycle clear the display, flush it and panic; the cycle never
    continues. When the display's [clear] or [flush] itself fails, that I/O
    error is returned instead. *)
Theorem unknown_instruction_aborts (inp : CycleInput) (m : Machine D K B)
    (byte_a byte_b pc : Z) :
  arr_get m.(state).(ram) m.(state).(program_counter) = Some byte_a ->
  arr_get m.(state).(ram) (m.(state).(program_counter) + 1) = Some byte_b ->
  add_checked 16 m.(state).(program_counter) 2 = Some pc ->
  decode_word byte_a byte_b = None ->
  cycle inp m =
    match display_clear m.(display) with
    | None => Fail IoError (mkMachine (set_pc m.(state) pc) m.(display) m.(keyboard) m.(beeper))
    | Some d1 =>
        match display_flush d1 with
        | None => Fail IoError (mkMachine (set_pc m.(state) pc) d1 m.(keyboard) m.(beeper))
        | Some d2 => Fail Panic (mkMachine (set_pc m.(state) pc) d2 m.(keyboard) m.(beeper))
        end
    end.
Proof.
  destruct m as [s d k b]. simpl. intros Ha Hb Hp Hd.
  cbv [cycle bind get_state checked put_state unknown_instruction clear_display
       flush_display with_display panic ret].
  cbn. rewrite Ha. cbn. rewrite Hb. cbn. rewrite Hp. cbn. rewrite Hd. cbn.
  destruct (display_clear d) as [d1|]; cbn; [|reflexivity].
  destruct (display_flush d1); reflexivity.
Qed.

End Unknown.

(** Claim C8, as stated: on a display backend whose [clear] fails, the
    unknown word [0000] makes the cycle return an I/O error, not abort. *)
Lemma unknown_instruction_io_error_counterexample :
  match boot_failing [0x00; 0x00] with
  | Some m => exists m', cycle (mkInput 0 false 0) m = Fail IoError m'
  | None => False
  end.
Proof. vm_compute. eexists. reflexivity. Qed.

(** ** Calls and returns *)

Lemma arr_set_some (l l' : list Z) (i v : Z) :
  arr_set l i v = Some l' -> 0 <= i < Z.of_nat (length l) /\ l' = <[Z.to_nat i := v]> l.
Proof. unfold arr_set. destruct (_ && _) eqn:E; [|discriminate].
  intros Hs. injection Hs as <-. apply andb_true_iff in E as [E1 E2].
  split; [lia | reflexivity]. Qed.

Lemma arr_get_some (l : list Z) (i v : Z) :
  arr_get l i = Some v -> 0 <= i /\ l !! Z.to_nat i = Some v.
Proof. unfold arr_get. destruct (0 <=? i) eqn:E; [|discriminate]. intros; split; [lia | assumption]. Qed.

Lemma frames_same_stack (s s' : Chip8State) :
  stack s' = stack s -> stack_pointer s' = stack_pointer s -> frames s' = frames s.
Proof. intros Hs Hp. unfold frames. rewrite Hs, Hp. reflexivity. Qed.

Section CallsReturns.
Context {D K B : Type} `{Chip8Display D} `{Chip8Keyboard K} `{Chip8Beeper B}.

Lemma store_registers_stack (is : list Z) : forall (m m' : Machine D K B),
  store_registers is m = Ok tt m' ->
  stack m'.(state) = stack m.(state) /\ stack_pointer m'.(state) = stack_pointer m.(state).
Proof.
  induction is as [|i rest IH]; intros [s d k b] m' Hs; cbn [store_registers] in Hs.
  - cbv [ret] in Hs. injection Hs as <-. auto.
  - cbv [bind get_state checked write_ram put_state] in Hs. cbn in Hs. crunch_M.
    apply IH in Hs. exact Hs.
Qed.

Lemma load_registers_stack (is : list Z) : forall (m m' : Machine D K B),
  load_registers is m = Ok tt m' ->
  stack m'.(state) = stack m.(state) /\ stack_pointer m'.(state) = stack_pointer m.(state).
Proof.
  induction is as [|i rest IH]; intros [s d k b] m' Hs; cbn [load_registers] in Hs.
  - cbv [ret] in Hs. injection Hs as <-. auto.
  - cbv [bind get_state checked put_state] in Hs. cbn in Hs. crunch_M.
    apply IH in Hs. exact Hs.
Qed.

(** Every instruction other than [2nnn] and [00EE] leaves the call stack
    and its pointer alone. *)
Lemma execute_other_stack (r : Z) (i : Instr) (m m' : Machine D K B) :
  (forall a, i <> CALL a) -> i <> RET -> execute r i m = Ok tt m' ->
  stack m'.(state) = stack m.(state) /\ stack_pointer m'.(state) = stack_pointer m.(state).
Proof.
  intros Hc Hr He.
  destruct i; try (exfalso; eapply Hc; reflexivity); try congruence;
    try (apply (store_registers_stack _ _ _ He));
    try (apply (load_registers_stack _ _ _ He));
    destruct m as [s d k b];
    cbv [execute bind ret get_state put_state modify_state checked add_pc sub_pc skip_if
         write_ram get_keyboard clear_display flush_display draw_display with_display
         panic] in He;
    cbn in He; crunch_M; auto.
Qed.

Lemma rev_seq_S (n : nat) : rev (seq 1 (S n)) = S n :: rev (seq 1 n).
Proof. rewrite seq_S, rev_app_distr. reflexivity. Qed.

(** One iteration seen through [frames]: a call pushes the address after
    it, a return pops the address it jumps to, anything else keeps them. *)
Lemma cycle_frames (inp : CycleInput) (m m' : Machine D K B) (ins : Instr) :
  cycle inp m = Ok ins m' -> wf_stack m.(state) ->
  wf_stack m'.(state) /\
  match ins with
  | CALL _ => frames m'.(state) = (m.(state).(program_counter) + 2) :: frames m.(state)
  | RET => frames m.(state) = m'.(state).(program_counter) :: frames m'.(state)
  | _ => frames m'.(state) = frames m.(state)
  end.
Proof.
  intros Hc [Hlen Hsp].
  destruct (cycle_ok _ _ _ _ Hc) as (ba & bb & pc & m1 & m2 & _ & _ & Ep & _ & Ee & Et & Ek).
  apply add_checked_16 in Ep. subst pc.
  destruct (timer_update_core _ _ _ _ Et) as (_ & _ & P1 & S1 & _ & T1).
  destruct (update_keyboard_core _ _ _ _ Ek) as (_ & _ & P2 & S2 & _ & T2).
  assert (F : frames m'.(state) = frames m1.(state)).
  { apply frames_same_stack; congruence. }
  rewrite F. unfold wf_stack. rewrite T2, T1, S2, S1, P2, P1.
  clear Hc Et Ek F T1 T2 S1 S2 P1 P2.
  destruct m as [s d k b]. simpl in *.
  assert (Hcase : (exists a, ins = CALL a) \/ ins = RET \/
                  ((forall a, ins <> CALL a) /\ ins <> RET))
    by (destruct ins; eauto; right; right; split; congruence).
  destruct Hcase as [[a ->] | [-> | [Hnc Hnr]]].
  - cbv [execute bind ret get_state put_state checked] in Ee. cbn in Ee.
    destruct (add_checked 8 (stack_pointer s) 1) as [sp|] eqn:Esp; [|discriminate].
    cbn in Ee.
    destruct (arr_set (stack s) sp (program_counter s + 2)) as [st|] eqn:Est;
      [|discriminate].
    injection Ee as <-. simpl.
    unfold add_checked in Esp. destruct (_ <? _) eqn:Elt; [|discriminate].
    injection Esp as <-. apply arr_set_some in Est as [Hr ->].
    rewrite length_insert. split; [split; [exact Hlen | lia]|].
    unfold frames. simpl.
    replace (Z.to_nat (stack_pointer s + 1)) with (S (Z.to_nat (stack_pointer s))) by lia.
    rewrite rev_seq_S. simpl. f_equal.
    + rewrite nth_lookup, list_lookup_insert_eq by lia. reflexivity.
    + apply map_ext_in. intros n Hn. apply in_rev, in_seq in Hn.
      rewrite !nth_lookup, list_lookup_insert_ne by lia. reflexivity.
  - cbv [execute bind ret get_state put_state modify_state checked] in Ee. cbn in Ee.
    destruct (arr_get (stack s) (stack_pointer s)) as [v|] eqn:Ev; [|discriminate].
    cbn in Ee.
    destruct (sub_checked (stack_pointer s) 1) as [sp|] eqn:Esp; [|discriminate].
    injection Ee as <-. simpl.
    unfold sub_checked in Esp. destruct (1 <=? _) eqn:Ele; [|discriminate].
    injection Esp as <-. apply arr_get_some in Ev as [_ Hv].
    split; [split; [exact Hlen | lia]|].
    unfold frames. simpl.
    replace (Z.to_nat (stack_pointer s)) with (S (Z.to_nat (stack_pointer s - 1))) at 1
      by lia.
    rewrite rev_seq_S. simpl. f_equal.
    replace (S (Z.to_nat (stack_pointer s - 1))) with (Z.to_nat (stack_pointer s)) by lia.
    rewrite nth_lookup, Hv. reflexivity.
  - destruct (execute_other_stack _ _ _ _ Hnc Hnr Ee) as [T S].
    simpl in T, S. rewrite T, S.
    split; [split; assumption|].
    assert (Fr : frames m1.(state) = frames s) by (apply frames_same_stack; assumption).
    destruct ins; try (exfalso; eapply Hnc; reflexivity);
      try (exfalso; apply Hnr; reflexivity); exact Fr.
Qed.

End CallsReturns.

Section Nesting.
Context {D K B : Type} `{Chip8Display D} `{Chip8Keyboard K} `{Chip8Beeper B}.

(** Claim C5. Along any run of the loop that does not fail (a call past the
    stack capacity panics), every [00EE] sets the program counter to the
    address after the [2nnn] it matches, calls and returns pairing up last
    in, first out; returns past the calls of the run pop the frames already
    on the stack. *)
Theorem calls_return_lifo (inputs : list CycleInput) (m m' : Machine D K B)
    (trace : list (Z * Instr * Z)) :
  wf_stack m.(state) -> run inputs m = Ok trace m' ->
  returns_match (frames m.(state)) trace = true.
Proof.
  revert m m' trace. induction inputs as [|inp rest IH]; intros m m' trace Hwf Hrun.
  - cbv [run ret] in Hrun. injection Hrun as <- _. reflexivity.
  - cbn [run] in Hrun. cbv [bind get_state ret] in Hrun.
    destruct (cycle inp m) as [ins m1|] eqn:Ec; [|discriminate].
    destruct (run rest m1) as [tr m2|] eqn:Er; [|discriminate].
    injection Hrun as <- _.
    destruct (cycle_frames _ _ _ _ Ec Hwf) as [Hwf1 Hf].
    specialize (IH m1 m2 tr Hwf1 Er).
    destruct ins; simpl in Hf |- *; try (rewrite <- Hf; exact IH).
    rewrite Hf, Z.eqb_refl. exact IH.
Qed.

End Nesting.

(** * Witnesses: each theorem with hypotheses, at a concrete input *)

Lemma add_sub_xy_semantics_witness :
  (regs_ok arith_example /\ 0 <= 0 < 16 /\ 0 <= 1 < 16 /\
   register arith_example.(state) 0 = 200 /\ register arith_example.(state) 1 = 100) /\
  (exists m', execute 0 (ADD_XY 0 1) arith_example = Ok tt m' /\
     (0 <> 15 -> register m'.(state) 0 = (200 + 100) mod 256) /\
     register m'.(state) 15 = (if 200 + 100 >? 255 then 1 else 0)) /\
  (exists m', execute 0 (SUB_XY 0 1) arith_example = Ok tt m' /\
     (0 <> 15 -> register m'.(state) 0 = (200 - 100) mod 256) /\
     register m'.(state) 15 = (if 200 >=? 100 then 1 else 0)).
Proof.
  split; [repeat split; try reflexivity; lia|].
  apply (add_sub_xy_semantics 0 arith_example 0 1 200 100);
    [reflexivity | lia | lia | reflexivity | reflexivity].
Defined.

Lemma flag_overwrites_vf_witness :
  (regs_ok vf_example /\ 0 <= 1 < 16 /\
   register vf_example.(state) 15 = 200 /\ register vf_example.(state) 1 = 100) /\
  (exists m', execute 0 (ADD_XY 15 1) vf_example = Ok tt m' /\
     register m'.(state) 15 = (if 200 + 100 >? 255 then 1 else 0)) /\
  (exists m', execute 0 (SUB_XY 15 1) vf_example = Ok tt m' /\
     register m'.(state) 15 = (if 200 >=? 100 then 1 else 0)) /\
  (exists m', execute 0 (SHR 15) vf_example = Ok tt m' /\ register m'.(state) 15 = 1) /\
  (exists m', execute 0 (SUBN_XY 15 1) vf_example = Ok tt m' /\
     register m'.(state) 15 = (if 100 >=? 200 then 1 else 0)) /\
  (exists m', execute 0 (SHL 15) vf_example = Ok tt m' /\ register m'.(state) 15 = 1).
Proof.
  split; [repeat split; try reflexivity; lia|].
  apply (flag_overwrites_vf 0 vf_example 1 200 100);
    [reflexivity | lia | reflexivity | reflexivity].
Defined.

Lemma load_program_layout_witness :
  exists s', length default_state.(ram) = 4096%nat /\
    load_program default_state [0x60; 0x05] = Some s' /\
    (length s'.(ram) = 4096%nat /\
     (forall i, (i < 80)%nat -> s'.(ram) !! i = FONT !! i) /\
     (forall d k, (d < 16)%nat -> (k < 5)%nat ->
        s'.(ram) !! (5 * d + k)%nat = FONT !! (5 * d + k)%nat) /\
     (forall i, (i < length [0x60; 0x05])%nat -> s'.(ram) !! (512 + i)%nat = [0x60; 0x05] !! i)).
Proof.
  destruct (load_program default_state [0x60; 0x05]) as [s'|] eqn:E.
  - exists s'. split; [reflexivity|]. split; [reflexivity|].
    apply (load_program_layout default_state s' [0x60; 0x05]); [reflexivity | exact E].
  - vm_compute in E. discriminate E.
Defined.

Lemma wait_for_key_cycle_witness :
  exists ins m',
    (0 <= 3 < 16 /\ regs_ok wait_example /\
     arr_get wait_example.(state).(ram) wait_example.(state).(program_counter) = Some (0xF0 + 3) /\
     arr_get wait_example.(state).(ram) (wait_example.(state).(program_counter) + 1) = Some 0x0A /\
     cycle inp0 wait_example = Ok ins m') /\
    (ins = LD_KEY 3 /\
     (last_key_pressed wait_example.(keyboard) = None ->
        m'.(state).(program_counter) = wait_example.(state).(program_counter)) /\
     (forall key, last_key_pressed wait_example.(keyboard) = Some key ->
        m'.(state).(program_counter) = wait_example.(state).(program_counter) + 2 /\
        register m'.(state) 3 = key)).
Proof.
  destruct (cycle inp0 wait_example) as [ins m'|f m'] eqn:Ec.
  - exists ins, m'. split.
    + split; [lia|]. split; [reflexivity|].
      split; [vm_compute; reflexivity|]. split; [vm_compute; reflexivity|]. reflexivity.
    + apply (wait_for_key_cycle inp0 wait_example m' 3 ins);
        [lia | reflexivity | vm_compute; reflexivity | vm_compute; reflexivity | exact Ec].
  - vm_compute in Ec. discriminate Ec.
Defined.

Lemma calls_return_lifo_witness :
  exists trace m',
    (wf_stack call_example.(state) /\
     run (repeat inp0 2) call_example = Ok trace m') /\
    returns_match (frames call_example.(state)) trace = true.
Proof.
  destruct (run (repeat inp0 2) call_example) as [trace m'|f m'] eqn:Er.
  - exists trace, m'. split.
    + split; [|reflexivity]. split; [reflexivity|].
      assert (Esp : stack_pointer (state call_example) = 0) by (vm_compute; reflexivity).
      rewrite Esp; lia.
    + apply (calls_return_lifo (repeat inp0 2) call_example m' trace); [|exact Er].
      split; [reflexivity|].
      assert (Esp : stack_pointer (state call_example) = 0) by (vm_compute; reflexivity).
      rewrite Esp; lia.
  - vm_compute in Er. discriminate Er.
Defined.

Lemma store_load_roundtrip_witness :
  (0 <= 15 < 16 /\ regs_ok store_example /\ length store_example.(state).(ram) = 4096%nat /\
   0 <= store_example.(state).(index_register) /\
   store_example.(state).(index_register) + 15 < 4096) /\
  exists m1 m2, execute 0 (STORE 15) store_example = Ok tt m1 /\
    execute 0 (LOAD 15) m1 = Ok tt m2 /\
    forall i, 0 <= i <= 15 -> register m2.(state) i = register store_example.(state) i.
Proof.
  split; [split; [lia|]; split; [reflexivity|]; split; [reflexivity|]; cbn; lia|].
  apply (store_load_roundtrip 0 0 store_example 15);
    [lia | reflexivity | reflexivity | cbn; lia | cbn; lia].
Defined.

Lemma unknown_instruction_aborts_witness :
  (arr_get unknown_example.(state).(ram) unknown_example.(state).(program_counter) = Some 0 /\
   arr_get unknown_example.(state).(ram) (unknown_example.(state).(program_counter) + 1) = Some 0 /\
   add_checked 16 unknown_example.(state).(program_counter) 2 = Some 0x202 /\
   decode_word 0 0 = None) /\
  cycle inp0 unknown_example =
    match display_clear unknown_example.(display) with
    | None => Fail IoError (mkMachine (set_pc unknown_example.(state) 0x202)
                 unknown_example.(display) unknown_example.(keyboard) unknown_example.(beeper))
    | Some d1 =>
        match display_flush d1 with
        | None => Fail IoError (mkMachine (set_pc unknown_example.(state) 0x202)
                     d1 unknown_example.(keyboard) unknown_example.(beeper))
        | Some d2 => Fail Panic (mkMachine (set_pc unknown_example.(state) 0x202)
                     d2 unknown_example.(keyboard) unknown_example.(beeper))
        end
    end.
Proof.
  split; [split; [vm_compute; reflexivity|]; split; [vm_compute; reflexivity|];
          split; vm_compute; reflexivity|].
  apply (unknown_instruction_aborts inp0 unknown_example 0 0 0x202);
    vm_compute; reflexivity.
Defined.

Lemma timer_tick_semantics_witness :
  (0 <= timer_example.(state).(delay_timer) /\ 0 <= timer_example.(state).(sound_timer)) /\
  exists s',
    same_core timer_example.(state) s' /\
    delay_timer s' = (if timer_example.(state).(delay_timer) =? 0 then 0
                      else timer_example.(state).(delay_timer) - 1) /\
    sound_timer s' = (if timer_example.(state).(sound_timer) =? 0 then 0
                      else timer_example.(state).(sound_timer) - 1) /\
    0 <= delay_timer s' /\ 0 <= sound_timer s' /\
    timer_update true timer_example =
      (let b' := if timer_example.(state).(sound_timer) =? 0
                 then beeper_pause timer_example.(beeper)
                 else beeper_play timer_example.(beeper) in
       match display_flush timer_example.(display) with
       | Some d' => Ok tt (mkMachine s' d' timer_example.(keyboard) b')
       | None => Fail IoError (mkMachine s' timer_example.(display) timer_example.(keyboard) b')
       end).
Proof.
  split; [cbn; lia|].
  apply (timer_tick_semantics timer_example); cbn; lia.
Defined.

(** * Further properties *)

Lemma arr_set_out (l : list Z) (i v : Z) :
  Z.of_nat (length l) <= i -> arr_set l i v = None.
Proof. intros Hi. unfold arr_set. destruct (_ && _) eqn:E; [|reflexivity].
  apply andb_true_iff in E as [_ E]. lia. Qed.

Section Extra.
Context {D K B : Type} `{Chip8Display D} `{Chip8Keyboard K} `{Chip8Beeper B}.

(** Fx33 writes the hundreds, tens and units digits of Vx to ram[I], ram[I+1] and ram[I+2] and no other byte; when I + 2 is past the end of memory it panics. *)
Theorem bcd_digits (r : Z) (m : Machine D K B) (x : Z) :
  let s := m.(state) in
  let v := register s x in
  0 <= v < 256 -> length s.(ram) = 4096%nat -> 0 <= s.(index_register) ->
  (s.(index_register) + 2 < 4096 ->
   exists r', execute r (BCD x) m =
                Ok tt (mkMachine (set_ram s r') m.(display) m.(keyboard) m.(beeper)) /\
     r' !! Z.to_nat s.(index_register) = Some (v / 100) /\
     r' !! Z.to_nat (s.(index_register) + 1) = Some (v / 10 mod 10) /\
     r' !! Z.to_nat (s.(index_register) + 2) = Some (v mod 10) /\
     v / 100 < 10 /\ v / 10 mod 10 < 10 /\ v mod 10 < 10 /\
     100 * (v / 100) + 10 * (v / 10 mod 10) + v mod 10 = v /\
     (forall a, (a < Z.to_nat s.(index_register) \/ Z.to_nat (s.(index_register) + 2) < a)%nat ->
        r' !! a = s.(ram) !! a)) /\
  (4094 <= s.(index_register) -> exists m', execute r (BCD x) m = Fail Panic m').
Proof.
  intros s v Hv Hl HI. destruct m as [s0 d k b]. simpl in s. subst s. simpl in *.
  set (I := index_register s0) in *.
  split.
  - intros HI2.
    exists (<[Z.to_nat (I + 2) := v mod 10]> (<[Z.to_nat (I + 1) := v / 10 mod 10]>
              (<[Z.to_nat I := v / 100]> (ram s0)))).
    split.
    + cbv [execute bind get_state write_ram checked put_state]. cbn.
      subst v I.
      rewrite arr_set_ok by lia. cbn. rewrite arr_set_ok by (rewrite length_insert; lia).
      cbn. rewrite arr_set_ok by (rewrite !length_insert; lia). reflexivity.
    + split; [rewrite list_lookup_insert_ne by lia; rewrite list_lookup_insert_ne by lia;
              apply list_lookup_insert_eq; lia|].
      split; [rewrite list_lookup_insert_ne by lia;
              rewrite list_lookup_insert_eq by (rewrite length_insert; lia); reflexivity|].
      split; [apply list_lookup_insert_eq; rewrite !length_insert; lia|].
      split; [apply Z.div_lt_upper_bound; lia|].
      split; [pose proof (Z.mod_pos_bound (v / 10) 10); lia|].
      split; [pose proof (Z.mod_pos_bound v 10); lia|].
      split; [assert (E100 : v / 100 = v / 10 / 10) by (rewrite Z.div_div; reflexivity || lia);
              pose proof (Z.div_mod v 10); pose proof (Z.div_mod (v / 10) 10); lia|].
      intros a Ha. rewrite !list_lookup_insert_ne by lia. reflexivity.
  - intros HI2.
    cbv [execute bind get_state write_ram checked put_state]. cbn. subst I.
    destruct (decide (index_register s0 = 4094)) as [E|E];
      [|destruct (decide (index_register s0 = 4095)) as [E'|E']].
    + rewrite arr_set_ok by lia. cbn. rewrite arr_set_ok by (rewrite length_insert; lia).
      cbn. rewrite arr_set_out by (rewrite !length_insert; lia). eexists. reflexivity.
    + rewrite arr_set_ok by lia. cbn. rewrite arr_set_out by (rewrite length_insert; lia).
      eexists. reflexivity.
    + rewrite arr_set_out by lia. eexists. reflexivity.
Qed.

(** 2nnn with a free stack slot jumps to nnn and pushes the current counter; an immediate 00EE gives back the state before the call, with only the stack slot written. *)
Theorem call_then_ret (r1 r2 a : Z) (m : Machine D K B) :
  let s := m.(state) in
  wf_stack s -> s.(stack_pointer) < 255 ->
  exists m1,
    execute r1 (CALL a) m = Ok tt m1 /\
    m1.(state).(program_counter) = a /\
    m1.(state).(stack_pointer) = s.(stack_pointer) + 1 /\
    m1.(state).(stack) !! Z.to_nat (s.(stack_pointer) + 1) = Some s.(program_counter) /\
    execute r2 RET m1 =
      Ok tt (mkMachine (set_stack s m1.(state).(stack)) m.(display) m.(keyboard) m.(beeper)).
Proof.
  intros s [Hl Hsp] Hsp'. destruct m as [s0 d k b]. subst s. simpl in *.
  set (st := <[Z.to_nat (stack_pointer s0 + 1) := program_counter s0]> (stack s0)).
  exists (mkMachine (set_pc (set_stack (set_sp s0 (stack_pointer s0 + 1)) st) a) d k b).
  assert (Hadd : add_checked 8 (stack_pointer s0) 1 = Some (stack_pointer s0 + 1)).
  { unfold add_checked. replace (2 ^ 8) with 256 by reflexivity.
    destruct (_ <? _) eqn:E; [reflexivity | lia]. }
  split.
  - cbv [execute bind get_state checked put_state]. cbn. rewrite Hadd. cbn.
    rewrite arr_set_ok by lia. reflexivity.
  - cbn. split; [reflexivity|]. split; [reflexivity|].
    split; [apply list_lookup_insert_eq; lia|].
    cbv [execute bind get_state checked put_state modify_state]. cbn.
    rewrite arr_get_ok by (subst st; rewrite length_insert; lia).
    cbn. unfold sub_checked. destruct (1 <=? stack_pointer s0 + 1) eqn:E; [|lia].
    cbn. replace (stack_pointer s0 + 1 - 1) with (stack_pointer s0) by lia.
    subst st. rewrite nth_lookup, list_lookup_insert_eq by lia. cbn.
    destruct s0; reflexivity.
Qed.

(** 2nnn with the stack pointer at 255 panics on the increment; 00EE with the stack pointer at 0 panics on the decrement, after the counter was set. *)
Theorem stack_limits (r : Z) (a : Z) (m : Machine D K B) :
  let s := m.(state) in
  (s.(stack_pointer) = 255 -> execute r (CALL a) m = Fail Panic m) /\
  (s.(stack_pointer) = 0 -> length s.(stack) = 256%nat ->
   execute r RET m =
     Fail Panic (mkMachine (set_pc s (nth 0 s.(stack) 0)) m.(display) m.(keyboard) m.(beeper))).
Proof.
  intros s. destruct m as [s0 d k b]. subst s. simpl. split.
  - intros Hsp. cbv [execute bind get_state checked put_state]. cbn.
    rewrite Hsp. reflexivity.
  - intros Hsp Hl. cbv [execute bind get_state checked put_state modify_state]. cbn.
    rewrite Hsp, arr_get_ok by lia. reflexivity.
Qed.

(** A cycle whose program counter leaves no room for a 2-byte instruction in the 4096-byte memory panics, before any state change. *)
Theorem fetch_out_of_memory (inp : CycleInput) (m : Machine D K B) :
  length m.(state).(ram) = 4096%nat -> 4095 <= m.(state).(program_counter) ->
  cycle inp m = Fail Panic m.
Proof.
  intros Hl Hpc. destruct m as [s0 d k b]. simpl in *.
  cbv [cycle bind get_state checked]. cbn.
  unfold arr_get. destruct (0 <=? program_counter s0) eqn:E0; [|reflexivity].
  destruct (decide (program_counter s0 = 4095)) as [E|E].
  - rewrite lookup_ge_None_2 with (i := Z.to_nat (program_counter s0 + 1)) by lia.
    destruct (ram s0 !! Z.to_nat (program_counter s0)); [destruct (0 <=? program_counter s0 + 1)|]; reflexivity.
  - rewrite lookup_ge_None_2 by lia. reflexivity.
Qed.

(** 3xkk, 4xkk, 5xy0, 9xy0, Ex9E and ExA1 each advance the counter by 2 exactly when their condition holds (and the opposite one for the negated forms), and change nothing else. *)
Theorem skip_pairs (r x y nn : Z) (m : Machine D K B) :
  let s := m.(state) in
  let after (c : bool) :=
    mkMachine (set_pc s (if c then s.(program_counter) + 2 else s.(program_counter)))
      m.(display) m.(keyboard) m.(beeper) in
  s.(program_counter) + 2 < 65536 ->
  execute r (SE_NN x nn) m = Ok tt (after (register s x =? nn)) /\
  execute r (SNE_NN x nn) m = Ok tt (after (negb (register s x =? nn))) /\
  execute r (SE_XY x y) m = Ok tt (after (register s x =? register s y)) /\
  execute r (SNE_XY x y) m = Ok tt (after (negb (register s x =? register s y))) /\
  execute r (SKP x) m = Ok tt (after (is_key_down m.(keyboard) (register s x))) /\
  execute r (SKNP x) m = Ok tt (after (negb (is_key_down m.(keyboard) (register s x)))).
Proof.
  intros s after Hpc. destruct m as [s0 d k b]. subst s after. simpl in *.
  assert (Hs : forall c, skip_if c (mkMachine s0 d k b) =
    Ok tt (mkMachine (set_pc s0 (if c then program_counter s0 + 2 else program_counter s0)) d k b)).
  { intros []; cbv [skip_if add_pc bind get_state checked put_state ret]; cbn.
    - rewrite add_checked_16_ok by lia. reflexivity.
    - destruct s0; reflexivity. }
  cbv [execute bind get_state get_keyboard]. cbn. rewrite !Hs. repeat split.
Qed.

(** 7xkk, 8xy1, 8xy2 and 8xy3 on a destination other than VF write their result to Vx only: VF and every other register are unchanged. *)
Theorem logic_ops_keep_vf (r x y nn : Z) (m : Machine D K B) :
  let s := m.(state) in
  0 <= x < 15 -> 0 <= y -> regs_ok m ->
  forall ins v,
    (ins, v) = (ADD_NN x nn, (register s x + nn) mod 256) \/
    (ins, v) = (OR_XY x y, Z.lor (register s x) (register s y)) \/
    (ins, v) = (AND_XY x y, Z.land (register s x) (register s y)) \/
    (ins, v) = (XOR_XY x y, Z.lxor (register s x) (register s y)) ->
  exists m', execute r ins m = Ok tt m' /\
    register m'.(state) x = v /\ register m'.(state) 15 = register s 15 /\
    (forall j, 0 <= j -> j <> x -> register m'.(state) j = register s j) /\
    m'.(state) = write_register s x v.
Proof.
  intros s Hx Hy Hr ins v Hcase. destruct m as [s0 d k b]. subst s. unfold regs_ok in Hr.
  simpl in *.
  exists (mkMachine (write_register s0 x v) d k b). cbn.
  assert (Hrun : execute r ins (mkMachine s0 d k b) = Ok tt (mkMachine (write_register s0 x v) d k b)).
  { destruct Hcase as [E|[E|[E|E]]]; injection E as -> ->; reflexivity. }
  split; [exact Hrun|].
  split; [apply register_write_same; lia|].
  split; [apply register_write_other; lia|].
  split; [intros j Hj Hne; apply register_write_other; lia | reflexivity].
Qed.

(** Fx1E sets I to (I + Vx) mod 65536 and VF to 1 exactly when the 16-bit addition overflows; V0 to VE are unchanged. *)
Theorem add_i_semantics (r x : Z) (m : Machine D K B) :
  let s := m.(state) in
  0 <= x < 16 -> regs_ok m ->
  exists m', execute r (ADD_I x) m = Ok tt m' /\
    m'.(state).(index_register) = (s.(index_register) + register s x) mod 65536 /\
    register m'.(state) 15 = (if 65535 <? s.(index_register) + register s x then 1 else 0) /\
    (forall j, 0 <= j < 15 -> register m'.(state) j = register s j).
Proof.
  intros s Hx Hr. destruct m as [s0 d k b]. subst s. unfold regs_ok in Hr. simpl in *.
  eexists. split; [reflexivity|]. cbn.
  split; [reflexivity|]. split.
  - rewrite nth_lookup, list_lookup_insert_eq by lia. reflexivity.
  - intros j Hj. unfold register. cbn.
    rewrite !nth_lookup, list_lookup_insert_ne by lia. reflexivity.
Qed.

(** Dxyn panics when the sprite bytes ram[I .. I+n] run past the end of memory; otherwise it draws exactly those bytes at (Vx, Vy) and stores the collision flag in VF, or fails with an I/O error if the display does. *)
Theorem draw_instruction (r x y n : Z) (m : Machine D K B) :
  let s := m.(state) in
  0 <= s.(index_register) -> 0 <= n ->
  (Z.of_nat (length s.(ram)) < s.(index_register) + n -> execute r (DRW x y n) m = Fail Panic m) /\
  (s.(index_register) + n <= Z.of_nat (length s.(ram)) ->
   let data := firstn (Z.to_nat n) (skipn (Z.to_nat s.(index_register)) s.(ram)) in
   execute r (DRW x y n) m =
     match display_draw m.(display) (register s x) (register s y) data with
     | Some (d', flag) => Ok tt (mkMachine (set_flag s flag) d' m.(keyboard) m.(beeper))
     | None => Fail IoError m
     end).
Proof.
  intros s HI Hn. destruct m as [s0 d k b]. subst s. simpl in *. split.
  - intros Hout. cbv [execute bind get_state checked]. cbn. unfold arr_slice.
    destruct (_ && _ && _) eqn:E; [|reflexivity].
    apply andb_true_iff in E as [_ E]. apply Z.leb_le in E. lia.
  - intros Hin. cbv [execute bind get_state checked draw_display with_display
      modify_state put_state]. cbn. unfold arr_slice.
    destruct (_ && _ && _) eqn:E.
    + replace (index_register s0 + n - index_register s0) with n by lia. cbn.
      destruct (display_draw d _ _ _) as [[d' f]|]; reflexivity.
    + apply andb_false_iff in E as [E|E]; [apply andb_false_iff in E as [E|E]|]; lia.
Qed.

(** Fx15 followed by Fy07 copies Vx into Vy through the delay timer, leaving every other register unchanged. *)
Theorem delay_timer_roundtrip (r1 r2 x y : Z) (m : Machine D K B) :
  let s := m.(state) in
  0 <= y < 16 -> regs_ok m ->
  exists m1 m2,
    execute r1 (LD_DT_VX x) m = Ok tt m1 /\
    m1.(state).(delay_timer) = register s x /\
    execute r2 (LD_VX_DT y) m1 = Ok tt m2 /\
    register m2.(state) y = register s x /\
    (forall j, 0 <= j -> j <> y -> register m2.(state) j = register s j).
Proof.
  intros s Hy Hr. destruct m as [s0 d k b]. subst s. unfold regs_ok in Hr. simpl in *.
  do 2 eexists. split; [reflexivity|]. split; [reflexivity|]. split; [reflexivity|].
  unfold register. cbn. split.
  - rewrite nth_lookup with (l := <[_ := _]> _), list_lookup_insert_eq by lia. reflexivity.
  - intros j Hj Hne. rewrite !nth_lookup, list_lookup_insert_ne by lia. reflexivity.
Qed.

(** Fx55 and Fx65 leave the index register unchanged; Fx55 writes only ram[I .. I+x] and no register, Fx65 writes no memory and only V0 .. Vx. *)
Theorem store_load_keep_index (r1 r2 : Z) (m : Machine D K B) (x : Z) :
  let s := m.(state) in
  0 <= x < 16 -> regs_ok m -> length s.(ram) = 4096%nat ->
  0 <= s.(index_register) -> s.(index_register) + x < 4096 ->
  (exists m1, execute r1 (STORE x) m = Ok tt m1 /\
     m1.(state).(index_register) = s.(index_register) /\
     m1.(state).(data_registers) = s.(data_registers) /\
     (forall a, (a < Z.to_nat s.(index_register) \/ Z.to_nat (s.(index_register) + x) < a)%nat ->
        m1.(state).(ram) !! a = s.(ram) !! a)) /\
  (exists m2, execute r2 (LOAD x) m = Ok tt m2 /\
     m2.(state).(index_register) = s.(index_register) /\
     m2.(state).(ram) = s.(ram) /\
     (forall j, x < j -> register m2.(state) j = register s j)).
Proof.
  intros s Hx Hr Hl HI HIx. destruct m as [s0 d k b]. subst s. unfold regs_ok in Hr.
  simpl in *. split.
  - destruct (store_registers_spec (range_incl x) s0 d k b) as (r' & Hrun & _ & _ & Hout).
    { intros i Hi. apply in_range_incl in Hi; lia. }
    { exact HI. } { lia. }
    eexists. split; [exact Hrun|]. cbn. split; [reflexivity|]. split; [reflexivity|].
    intros a Ha. apply Hout. intros i Hi. apply in_range_incl in Hi; lia.
  - destruct (load_registers_spec (range_incl x) s0 d k b) as (regs' & Hrun & _ & _ & Hout).
    { intros i Hi. apply in_range_incl in Hi; lia. }
    { exact HI. } { lia. } { exact Hr. }
    eexists. split; [exact Hrun|]. cbn. split; [reflexivity|]. split; [reflexivity|].
    intros j Hj. unfold register. cbn. apply Hout; [lia|].
    rewrite in_range_incl by lia. lia.
Qed.
End Extra.

Lemma forall_byte (f : Z -> bool) :
  forallb f (map Z.of_nat (seq 0 256)) = true -> forall a, 0 <= a < 256 -> f a = true.
Proof.
  intros Hall a Ha. rewrite forallb_forall in Hall. apply Hall.
  apply in_map_iff. exists (Z.to_nat a). split; [lia|]. apply in_seq. lia.
Qed.

(** The exact set of instruction words that decode to no instruction. *)
Theorem unknown_opcodes (a b : Z) :
  0 <= a < 256 -> 0 <= b < 256 ->
  decode_word a b = None <->
  (a = 0 /\ b <> 0xE0 /\ b <> 0xEE) \/ (1 <= a < 16) \/
  (a / 16 = 5 /\ b mod 16 <> 0) \/
  (a / 16 = 8 /\ 8 <= b mod 16 /\ b mod 16 <> 14) \/
  (a / 16 = 9 /\ b mod 16 <> 0) \/
  (a / 16 = 14 /\ b <> 0x9E /\ b <> 0xA1) \/
  (a / 16 = 15 /\ ~ In b [0x07; 0x0A; 0x15; 0x18; 0x1E; 0x29; 0x33; 0x55; 0x65]).
Proof.
  intros Ha Hb.
  set (cond := fun a b =>
    ((a =? 0) && negb (b =? 0xE0) && negb (b =? 0xEE)) || ((1 <=? a) && (a <? 16)) ||
    ((a / 16 =? 5) && negb (b mod 16 =? 0)) ||
    ((a / 16 =? 8) && (8 <=? b mod 16) && negb (b mod 16 =? 14)) ||
    ((a / 16 =? 9) && negb (b mod 16 =? 0)) ||
    ((a / 16 =? 14) && negb (b =? 0x9E) && negb (b =? 0xA1)) ||
    ((a / 16 =? 15) &&
       negb (existsb (Z.eqb b) [0x07; 0x0A; 0x15; 0x18; 0x1E; 0x29; 0x33; 0x55; 0x65]))).
  assert (Hchk : Bool.eqb (match decode_word a b with None => true | Some _ => false end)
                          (cond a b) = true).
  { revert b Hb. apply forall_byte with
      (f := fun b => Bool.eqb (match decode_word a b with None => true | Some _ => false end)
                              (cond a b)).
    revert a Ha. apply forall_byte with
      (f := fun a => forallb (fun b => Bool.eqb
              (match decode_word a b with None => true | Some _ => false end) (cond a b))
              (map Z.of_nat (seq 0 256))).
    vm_compute. reflexivity. }
  apply Bool.eqb_prop in Hchk.
  assert (Hin : forall l, existsb (Z.eqb b) l = true <-> In b l).
  { intros l. rewrite existsb_exists. split.
    - intros (c & Hc & E). apply Z.eqb_eq in E. subst. exact Hc.
    - intros Hc. exists b. split; [exact Hc | apply Z.eqb_refl]. }
  transitivity (cond a b = true).
  - destruct (decode_word a b); rewrite <- Hchk; split; congruence.
  - subst cond. cbv beta.
    rewrite !orb_true_iff, !andb_true_iff, !negb_true_iff, !Z.eqb_eq, !Z.leb_le,
      !Z.ltb_lt, <- !not_true_iff_false, !Z.eqb_eq, Hin.
    tauto.
Qed.

Lemma store_bytes_none (bytes : list Z) : forall (r : list Z) (base i : Z),
  0 <= base -> 0 <= i -> base + i <= Z.of_nat (length r) ->
  store_bytes r base i bytes = None <->
  Z.of_nat (length r) < base + i + Z.of_nat (length bytes).
Proof.
  induction bytes as [|b rest IH]; intros r base i Hb Hi Hr; simpl.
  - split; [discriminate | lia].
  - unfold arr_set. destruct ((0 <=? base + i) && (base + i <? Z.of_nat (length r))) eqn:E.
    + apply andb_true_iff in E as [_ E]. apply Z.ltb_lt in E.
      rewrite IH by (rewrite ?length_insert; lia). rewrite length_insert. lia.
    + apply andb_false_iff in E as [E|E]; [lia|]. apply Z.ltb_ge in E. split; [lia|].
      reflexivity.
Qed.

(** load_program panics exactly when the program is longer than the 3584 bytes from 0x200 to the end of memory; otherwise it changes only the memory, and leaves the bytes between the font and 0x200 and those after the program as they were. *)
Theorem load_program_bounds (s : Chip8State) (program : list Z) :
  length s.(ram) = 4096%nat ->
  (load_program s program = None <-> (3584 < length program)%nat) /\
  (forall s', load_program s program = Some s' ->
     s' = set_ram s s'.(ram) /\
     forall a, (80 <= a < 512 \/ 512 + length program <= a)%nat -> s'.(ram) !! a = s.(ram) !! a).
Proof.
  intros Hl. unfold load_program, load_font_data.
  destruct (store_bytes (ram s) 0 0 FONT) as [r1|] eqn:E1.
  2:{ apply store_bytes_none in E1; [|lia|lia|lia]. simpl in E1. lia. }
  destruct (store_bytes_spec FONT (ram s) r1 0 0 ltac:(lia) ltac:(lia) E1) as (L1 & _ & Out1).
  simpl. split.
  - destruct (store_bytes r1 512 0 program) as [r2|] eqn:E2.
    + split; [discriminate|]. intros Hlen.
      destruct (store_bytes_spec program r1 r2 512 0 ltac:(lia) ltac:(lia) E2) as (L2 & _ & _).
      exfalso. assert (Hn : store_bytes r1 512 0 program = None) by
        (apply store_bytes_none; [lia | lia | rewrite L1; lia | rewrite L1; lia]).
      congruence.
    + apply store_bytes_none in E2; [|lia|lia|rewrite L1; lia]. split; [intros _; lia | reflexivity].
  - intros s' Hs. destruct (store_bytes r1 512 0 program) as [r2|] eqn:E2; [|discriminate].
    injection Hs as <-.
    destruct (store_bytes_spec program r1 r2 512 0 ltac:(lia) ltac:(lia) E2) as (_ & _ & Out2).
    split; [destruct s; reflexivity|].
    intros a Ha. simpl. rewrite Out2 by (simpl; lia). apply Out1. simpl. lia.
Qed.

Lemma draw_row_none (x row t : Z) (js : list Z) : forall (disp : list bool) (pc : bool) (k : nat),
  (k < length js)%nat -> 255 < x + nth k js 0 ->
  (forall k', (k' < k)%nat -> x + nth k' js 0 <= 255 /\ row * 64 + (x + nth k' js 0) < 2048) ->
  draw_row js x row t disp pc = None.
Proof.
  induction js as [|j js IH]; intros disp pc k Hk Hover Hbefore; simpl in Hk; [lia|].
  cbn [draw_row]. destruct k as [|k].
  - simpl in Hover. destruct (255 <? x + j) eqn:E; [reflexivity | lia].
  - destruct (Hbefore 0%nat ltac:(lia)) as [H1 H2]. simpl in H1, H2.
    destruct (255 <? x + j) eqn:E; [lia|].
    unfold DISPLAY_LEN, WIDTH. destruct (64 * 32 <=? row * 64 + (x + j)) eqn:E2; [lia|].
    apply (IH _ _ k); [lia | exact Hover |].
    intros k' Hk'. apply (Hbefore (S k')). lia.
Qed.

Lemma nth_columns (k : nat) : (k < 8)%nat -> nth k [0; 1; 2; 3; 4; 5; 6; 7] 0 = Z.of_nat k.
Proof.
  intros Hk. do 8 (destruct k as [|k]; [reflexivity|]). lia.
Qed.

Lemma draw_row_overflow (x row t : Z) (disp : list bool) (pc : bool) :
  249 <= x <= 255 -> 0 <= row <= 28 ->
  draw_row [0; 1; 2; 3; 4; 5; 6; 7] x row t disp pc = None.
Proof.
  intros Hx Hr. apply (draw_row_none _ _ _ _ _ _ (Z.to_nat (256 - x))).
  - simpl. lia.
  - rewrite nth_columns by lia. lia.
  - intros k' Hk'. rewrite nth_columns by lia. lia.
Qed.

(** CrossTermDisplay::draw with x in 249 .. 255 panics on the u8 addition x + j in its first row, for any nonempty sprite drawn at a row y <= 28. *)
Theorem draw_column_overflow (disp : list bool) (x y : Z) (data : list Z) :
  249 <= x <= 255 -> 0 <= y <= 28 -> data <> [] -> CrossTerm.draw disp x y data = None.
Proof.
  intros Hx Hy Hd. destruct data as [|t rest]; [congruence|].
  unfold draw. cbn [draw_rows]. rewrite draw_row_overflow by lia. reflexivity.
Qed.


Lemma nth_insert_bool (l : list bool) (i k : nat) (v : bool) :
  (i < length l)%nat ->
  nth k (<[i := v]> l) false = if decide (k = i) then v else nth k l false.
Proof.
  intros Hi. rewrite !nth_lookup. destruct (decide (k = i)) as [->|Hne].
  - rewrite list_lookup_insert_eq by lia. reflexivity.
  - rewrite list_lookup_insert_ne by lia. reflexivity.
Qed.

(** [draw_row] XORs a mask that does not depend on the framebuffer. *)
Lemma draw_row_mask (x row t : Z) (js : list Z) :
  forall (d1 d2 d1' : list bool) (p1 p2 p1' : bool),
  length d1 = 2048%nat -> length d2 = 2048%nat ->
  draw_row js x row t d1 p1 = Some (d1', p1') ->
  exists d2' p2', draw_row js x row t d2 p2 = Some (d2', p2') /\
    length d1' = 2048%nat /\ length d2' = 2048%nat /\
    forall k, xorb (nth k d1' false) (nth k d2' false) =
              xorb (nth k d1 false) (nth k d2 false).
Proof.
  induction js as [|j js IH]; intros d1 d2 d1' p1 p2 p1' L1 L2 Hd; cbn [draw_row] in *.
  - injection Hd as <- <-. eauto 6.
  - destruct (255 <? x + j); [discriminate|].
    unfold DISPLAY_LEN, WIDTH in *.
    destruct (64 * 32 <=? row * 64 + (x + j)) eqn:E.
    + injection Hd as <- <-. eauto 6.
    + apply Z.leb_gt in E.
      set (i := Z.to_nat (row * 64 + (x + j))) in *.
      set (f := 0 <? Z.land t (Z.shiftl 1 (7 - j))) in *.
      edestruct (IH (<[i := xorb (nth i d1 false) f]> d1)
                    (<[i := xorb (nth i d2 false) f]> d2))
        as (d2' & p2' & Hrun & L1' & L2' & Hx);
        [rewrite length_insert; exact L1 | rewrite length_insert; exact L2 | exact Hd |].
      exists d2', p2'. split; [exact Hrun|]. split; [exact L1'|]. split; [exact L2'|].
      intros k. rewrite Hx, !nth_insert_bool by lia.
      destruct (decide (k = i)) as [->|]; [|reflexivity].
      destruct (nth i d1 false), (nth i d2 false), f; reflexivity.
Qed.

Lemma draw_rows_mask (x y : Z) (data : list Z) :
  forall (i : Z) (d1 d2 d1' : list bool) (p1 p2 p1' : bool),
  length d1 = 2048%nat -> length d2 = 2048%nat ->
  draw_rows data i x y d1 p1 = Some (d1', p1') ->
  exists d2' p2', draw_rows data i x y d2 p2 = Some (d2', p2') /\
    length d1' = 2048%nat /\ length d2' = 2048%nat /\
    forall k, xorb (nth k d1' false) (nth k d2' false) =
              xorb (nth k d1 false) (nth k d2 false).
Proof.
  induction data as [|t data IH]; intros i d1 d2 d1' p1 p2 p1' L1 L2 Hd; cbn [draw_rows] in *.
  - injection Hd as <- <-. eauto 6.
  - destruct (draw_row _ x (y + i) t d1 p1) as [[e1 q1]|] eqn:E1; [|discriminate].
    destruct (draw_row_mask x (y + i) t _ d1 d2 e1 p1 p2 q1 L1 L2 E1)
      as (e2 & q2 & E2 & M1 & M2 & Hx).
    rewrite E2.
    destruct (IH (i + 1) e1 e2 d1' q1 q2 p1' M1 M2 Hd) as (d2' & p2' & Hrun & L1' & L2' & Hx').
    exists d2', p2'. split; [exact Hrun|]. split; [exact L1'|]. split; [exact L2'|].
    intros k. rewrite Hx', Hx. reflexivity.
Qed.

(** Drawing the same sprite twice at the same place restores the framebuffer: the XOR drawing is an involution. *)
Theorem draw_twice_restores (disp disp' : list bool) (x y : Z) (data : list Z) (f : bool) :
  length disp = 2048%nat -> CrossTerm.draw disp x y data = Some (disp', f) ->
  exists f', CrossTerm.draw disp' x y data = Some (disp, f').
Proof.
  intros L Hd. unfold draw in *.
  destruct (draw_rows_mask x y data 0 disp disp disp' false false f L L Hd)
    as (e & q & _ & L' & _ & _).
  destruct (draw_rows_mask x y data 0 disp disp' disp' false false f L L' Hd)
    as (d2 & f2 & Hrun & _ & L2 & Hx).
  exists f2. rewrite Hrun. f_equal. f_equal.
  apply nth_ext with (d := false) (d' := false); [lia|].
  intros k _. specialize (Hx k).
  destruct (nth k disp' false), (nth k d2 false), (nth k disp false); simpl in Hx;
    congruence.
Qed.


Lemma keymap_inverse (c : Keyboard.KeyCode) (k : Z) :
  Keyboard.crossterm_keymap c = Some k ->
  0 <= k < 16 /\
  c = Keyboard.Char (nth (Z.to_nat k)
        ["x"; "1"; "2"; "3"; "q"; "w"; "e"; "a"; "s"; "d"; "z"; "c"; "4"; "r"; "f"; "v"]%char
        "x"%char).
Proof.
  destruct c as [a| | | | |]; simpl; try discriminate.
  destruct a as [[] [] [] [] [] [] [] []]; simpl; try discriminate;
    intros E; injection E as <-; split; (lia || reflexivity).
Qed.

(** crossterm_keymap maps exactly 16 keys one-to-one onto the CHIP-8 keys 0 .. 15. *)
Theorem keymap_bijective :
  (forall c1 c2 k, Keyboard.crossterm_keymap c1 = Some k ->
     Keyboard.crossterm_keymap c2 = Some k -> c1 = c2) /\
  (forall k, 0 <= k < 16 <-> exists c, Keyboard.crossterm_keymap c = Some k).
Proof.
  split.
  - intros c1 c2 k H1 H2. apply keymap_inverse in H1 as [_ ->]. apply keymap_inverse in H2 as [_ ->].
    reflexivity.
  - intros k. split.
    + intros Hk.
      exists (Keyboard.Char (nth (Z.to_nat k)
          ["x"; "1"; "2"; "3"; "q"; "w"; "e"; "a"; "s"; "d"; "z"; "c"; "4"; "r"; "f"; "v"]%char
          "x"%char)).
      assert (Hc : k = 0 \/ k = 1 \/ k = 2 \/ k = 3 \/ k = 4 \/ k = 5 \/ k = 6 \/ k = 7 \/
                   k = 8 \/ k = 9 \/ k = 10 \/ k = 11 \/ k = 12 \/ k = 13 \/ k = 14 \/ k = 15)
        by lia.
      repeat destruct Hc as [-> | Hc]; [..| subst k]; reflexivity.
    + intros [c Hc]. apply keymap_inverse in Hc. tauto.
Qed.

Lemma land_pow2 (ks k : Z) :
  0 <= k -> (0 <? Z.land ks (Z.shiftl 1 k)) = Z.testbit ks k.
Proof.
  intros Hk. rewrite Z.shiftl_1_l.
  assert (E : Z.land ks (2 ^ k) = if Z.testbit ks k then 2 ^ k else 0).
  { apply Z.bits_inj'. intros n Hn. rewrite Z.land_spec, Z.pow2_bits_eqb by lia.
    destruct (Z.testbit ks k) eqn:Ek.
    - rewrite Z.pow2_bits_eqb by lia. destruct (Z.eqb_spec k n); subst; [now rewrite Ek|].
      apply andb_false_r.
    - rewrite Z.bits_0. destruct (Z.eqb_spec k n); subst; [now rewrite Ek|].
      apply andb_false_r. }
  rewrite E. destruct (Z.testbit ks k); [apply Z.ltb_lt, Z.pow_pos_nonneg; lia | reflexivity].
Qed.

Lemma land_pow2_eq0 (ks k : Z) :
  0 <= k -> (Z.land ks (Z.shiftl 1 k) =? 0) = negb (Z.testbit ks k).
Proof.
  intros Hk. rewrite <- land_pow2 by exact Hk.
  assert (0 <= Z.land ks (Z.shiftl 1 k)).
  { apply Z.land_nonneg. right. rewrite Z.shiftl_1_l. apply Z.pow_nonneg. lia. }
  destruct (Z.eqb_spec (Z.land ks (Z.shiftl 1 k)) 0), (Z.ltb_spec 0 (Z.land ks (Z.shiftl 1 k)));
    reflexivity || lia.
Qed.

Lemma is_key_down_bit (kb : Keyboard.CrossTermKeyboard) (j : Z) :
  0 <= j < 16 -> Keyboard.is_key_down kb j = Some (Z.testbit kb.(Keyboard.key_states) j).
Proof.
  intros Hj. unfold Keyboard.is_key_down. destruct (16 <=? j) eqn:E; [lia|].
  rewrite land_pow2 by lia. reflexivity.
Qed.

(** A press of a mapped key sets its bit and records it as last pressed only if it was up; a release clears its bit; other keys and, on release or repeat, the last pressed key are unchanged. *)
Theorem key_press_release (kb : Keyboard.CrossTermKeyboard) (code : Keyboard.KeyCode) (key : Z) :
  Keyboard.crossterm_keymap code = Some key ->
  let p := Keyboard.handle_event kb (Keyboard.Key code Keyboard.Press) in
  let r := Keyboard.handle_event kb (Keyboard.Key code Keyboard.Release) in
  Keyboard.is_key_down p key = Some true /\
  p.(Keyboard.last_key_pressed) =
    (match Keyboard.is_key_down kb key with
     | Some true => kb.(Keyboard.last_key_pressed)
     | _ => Some key
     end) /\
  Keyboard.is_key_down r key = Some false /\
  r.(Keyboard.last_key_pressed) = kb.(Keyboard.last_key_pressed) /\
  (forall j, 0 <= j < 16 -> j <> key ->
     Keyboard.is_key_down p j = Keyboard.is_key_down kb j /\
     Keyboard.is_key_down r j = Keyboard.is_key_down kb j) /\
  Keyboard.handle_event kb (Keyboard.Key code Keyboard.Repeat) = kb.
Proof.
  intros Hc p r. destruct (keymap_inverse _ _ Hc) as [Hk _].
  subst p r. unfold Keyboard.handle_event. rewrite Hc.
  rewrite !is_key_down_bit by lia. cbn [Keyboard.key_states Keyboard.last_key_pressed].
  rewrite land_pow2_eq0 by lia. rewrite Z.shiftl_1_l.
  assert (Hset : Z.testbit (Z.lor (Keyboard.key_states kb) (2 ^ key)) key = true).
  { rewrite Z.lor_spec, Z.pow2_bits_true by lia. apply orb_true_r. }
  assert (Hclr : Z.testbit (Z.land (Keyboard.key_states kb) (Z.lxor 65535 (2 ^ key))) key = false).
  { rewrite Z.land_spec, Z.lxor_spec, Z.pow2_bits_true by lia.
    replace (Z.testbit 65535 key) with true
      by (change 65535 with (Z.ones 16); symmetry; apply Z.ones_spec_low; lia).
    apply andb_false_r. }
  split; [rewrite Hset; reflexivity|].
  split.
  - destruct (Z.testbit (Keyboard.key_states kb) key); reflexivity.
  - split; [rewrite Hclr; reflexivity|]. split; [reflexivity|]. split; [|reflexivity].
    intros j Hj Hne. rewrite !is_key_down_bit by lia. cbn [Keyboard.key_states].
    rewrite Z.lor_spec, Z.land_spec, Z.lxor_spec, !Z.pow2_bits_false by lia.
    replace (Z.testbit 65535 j) with true
      by (change 65535 with (Z.ones 16); symmetry; apply Z.ones_spec_low; lia).
    rewrite orb_false_r, andb_true_r. split; reflexivity.
Qed.

Lemma handle_events_last (evs : list Keyboard.Polled) : forall kb kb',
  Keyboard.handle_events kb evs = Some kb' ->
  kb'.(Keyboard.last_key_pressed) = kb.(Keyboard.last_key_pressed) \/
  exists c k, Keyboard.crossterm_keymap c = Some k /\ kb'.(Keyboard.last_key_pressed) = Some k /\
    In (Keyboard.Got (Keyboard.Key c Keyboard.Press)) evs.
Proof.
  induction evs as [|[e|] evs IH]; intros kb kb' Hh; simpl in Hh; try discriminate.
  - injection Hh as <-. left. reflexivity.
  - destruct (IH _ _ Hh) as [E | (c & k & Hc & Hl & Hin)].
    + destruct e as [code kind|]; simpl in E.
      * destruct (Keyboard.crossterm_keymap code) as [key|] eqn:Hc; [|left; exact E].
        destruct kind; simpl in E; try (left; exact E).
        destruct (Z.land _ _ =? 0); [|left; exact E].
        right. exists code, key. split; [exact Hc|]. split; [exact E|]. left. reflexivity.
      * left. exact E.
    + right. exists c, k. split; [exact Hc|]. split; [exact Hl|]. right. exact Hin.
Qed.

(** After update_keystates, last_key_pressed is None or a key whose press event was read during that call. *)
Theorem update_reports_window_press (kb kb' : Keyboard.CrossTermKeyboard) (evs : list Keyboard.Polled) :
  Keyboard.update_keystates kb evs = Some kb' ->
  kb'.(Keyboard.last_key_pressed) = None \/
  exists c k, Keyboard.crossterm_keymap c = Some k /\ kb'.(Keyboard.last_key_pressed) = Some k /\
    In (Keyboard.Got (Keyboard.Key c Keyboard.Press)) evs.
Proof.
  intros Hu. apply handle_events_last in Hu. exact Hu.
Qed.

(** In rom_selector, while the selection is visible on a screen of at least 3 rows and the list is nonempty, no key panics, the selection stays visible and within the list, and Enter selects the highlighted entry. *)
Theorem selection_stays_visible (len rows sel scroll : Z) (code : Keyboard.KeyCode) :
  3 <= rows -> 0 < len ->
  0 <= scroll <= sel -> sel < len -> sel < scroll + rows - 2 ->
  exists res, Selector.nav_key len rows sel scroll code = Some res /\
    match res with
    | Selector.Stay sel' scroll' => 0 <= scroll' <= sel' /\ sel' < len /\ sel' < scroll' + rows - 2
    | Selector.Selected i => i = sel
    | Selector.Interrupted => True
    end.
Proof.
  intros Hr Hl Hs Hsel Hvis.
  assert (Hup : exists res, (let scroll_value :=
        if (scroll =? 0) && (sel =? 0) then Z.max (len - rows + 2) 0
        else if scroll =? sel then Z.max (scroll - 1) 0 else scroll in
      if sel =? 0 then if len =? 0 then None else Some (Selector.Stay (len - 1) scroll_value)
      else Some (Selector.Stay (sel - 1) scroll_value)) = Some res /\
      match res with
      | Selector.Stay sel' scroll' => 0 <= scroll' <= sel' /\ sel' < len /\ sel' < scroll' + rows - 2
      | Selector.Selected i => i = sel
      | Selector.Interrupted => True
      end).
  { cbv zeta. destruct (Z.eqb_spec sel 0) as [E0|E0].
    - subst sel. assert (scroll = 0) by lia. subst scroll. rewrite !Z.eqb_refl. cbn [andb].
      destruct (Z.eqb_spec len 0); [lia|]. eexists. split; [reflexivity|]. cbn iota. lia.
    - destruct (Z.eqb_spec scroll 0); destruct (Z.eqb_spec scroll sel); simpl;
        eexists; (split; [reflexivity|]); cbn iota; lia. }
  assert (Hdown : exists res, (if len =? 0 then None else
      let selected_index := (sel + 1) mod len in
      if selected_index =? 0 then Some (Selector.Stay selected_index 0)
      else if scroll + rows <? 2 then None
      else if scroll + rows - 2 <=? selected_index
      then Some (Selector.Stay selected_index (scroll + 1))
      else Some (Selector.Stay selected_index scroll)) = Some res /\
      match res with
      | Selector.Stay sel' scroll' => 0 <= scroll' <= sel' /\ sel' < len /\ sel' < scroll' + rows - 2
      | Selector.Selected i => i = sel
      | Selector.Interrupted => True
      end).
  { destruct (Z.eqb_spec len 0); [lia|]. cbv zeta.
    destruct (Z.eq_dec (sel + 1) len) as [Eq|Ne].
    - rewrite Eq, Z.mod_same by lia. simpl. eexists. split; [reflexivity|]. cbn iota. lia.
    - rewrite Z.mod_small by lia. destruct (Z.eqb_spec (sel + 1) 0); [lia|].
      destruct (Z.ltb_spec (scroll + rows) 2); [lia|].
      destruct (Z.leb_spec (scroll + rows - 2) (sel + 1));
        eexists; (split; [reflexivity|]); cbn iota; lia. }
  destruct code as [c| | | | |]; [| exact Hup | exact Hdown | simpl.. ].
  - destruct (ascii_dec c "w"%char) as [->|Hw]; [exact Hup|].
    destruct (ascii_dec c "s"%char) as [->|Hs'].
    + exact Hdown.
    + assert (Hother : Selector.nav_key len rows sel scroll (Keyboard.Char c) =
                       Some (Selector.Stay sel scroll)).
      { destruct c as [[] [] [] [] [] [] [] []]; try reflexivity;
          exfalso; (apply Hw; reflexivity) || (apply Hs'; reflexivity). }
      rewrite Hother. eexists. split; [reflexivity|]. cbn iota. lia.
  - destruct (Z.ltb_spec sel len); [|lia]. eexists. split; reflexivity.
  - eexists. split; reflexivity.
  - eexists. split; [reflexivity|]. cbn iota. lia.
Qed.

(** In rom_selector with no ROM found, Up, Down, w, s and Enter all panic. *)
Theorem empty_rom_list_panics (rows scroll : Z) (code : Keyboard.KeyCode) :
  In code [Keyboard.Up; Keyboard.Down; Keyboard.Enter;
           Keyboard.Char "w"%char; Keyboard.Char "s"%char] ->
  Selector.nav_key 0 rows 0 scroll code = None.
Proof.
  intros Hin. repeat destruct Hin as [<-|Hin]; try reflexivity. destruct Hin.
Qed.

(** n calls of Timer::tick at one instant fire min(n, elapsed / interval) times, each advancing last_tick by one interval, which never passes the current instant. *)
Theorem timer_catches_up (n : nat) : forall (t : Timer.Timer) (now : Z),
  0 < t.(Timer.interval) -> t.(Timer.last_tick) <= now ->
  let (t', fired) := Timer.ticks n t now in
  fired = Nat.min n (Z.to_nat ((now - t.(Timer.last_tick)) / t.(Timer.interval))) /\
  t'.(Timer.interval) = t.(Timer.interval) /\
  t'.(Timer.last_tick) = t.(Timer.last_tick) + Z.of_nat fired * t.(Timer.interval) /\
  t'.(Timer.last_tick) <= now.
Proof.
  induction n as [|n IH]; intros [iv last] now Hiv Hlast; simpl in *.
  - split; [reflexivity|]. lia.
  - unfold Timer.tick. simpl.
    destruct (Z.leb_spec iv (Z.max 0 (now - last))) as [Hf|Hf].
    + specialize (IH (Timer.mkTimer iv (last + iv)) now Hiv ltac:(simpl; lia)).
      destruct (Timer.ticks n (Timer.mkTimer iv (last + iv)) now) as [t' k] eqn:E.
      simpl in IH. destruct IH as (Hk & Hi & Hl & Hn).
      assert (Hq : (now - (last + iv)) / iv = (now - last) / iv - 1).
      { replace (now - (last + iv)) with ((now - last) + (-1) * iv) by lia.
        rewrite Z.div_add by lia. lia. }
      assert (Hq1 : 1 <= (now - last) / iv).
      { apply Z.div_le_lower_bound; lia. }
      rewrite Hq in Hk. split; [|split; [exact Hi|split; [rewrite Hl; lia | exact Hn]]].
      rewrite Hk. replace (Z.to_nat ((now - last) / iv)) with (S (Z.to_nat ((now - last) / iv - 1)))
        by lia. reflexivity.
    + assert (Hq0 : (now - last) / iv = 0) by (apply Z.div_small; lia).
      rewrite Hq0. specialize (IH (Timer.mkTimer iv last) now Hiv Hlast).
      destruct (Timer.ticks n (Timer.mkTimer iv last) now) as [t' k] eqn:E.
      simpl in IH. rewrite Hq0 in IH. destruct IH as (Hk & Hi & Hl & Hn).
      rewrite Nat.min_0_r in *. subst k. split; [reflexivity|]. lia.
Qed.

Section Macro.
Import OpcodeMacro.

Lemma fold_macro_none (parts : list (list Z)) :
  fold_left fold_step parts None = None.
Proof. induction parts; simpl; auto. Qed.

Lemma fold_macro_some_none (parts : list (list Z)) : forall acc,
  fold_left fold_step parts (Some acc) = None <->
  exists p, In p parts /\ capitalize p = None.
Proof.
  induction parts as [|p ps IH]; intros acc; simpl.
  - split; [discriminate|]. intros (p & [] & _).
  - destruct (capitalize p) as [q|] eqn:Ep.
    + rewrite IH. split.
      * intros (p' & Hin & Hp'). exists p'. split; [right; exact Hin | exact Hp'].
      * intros (p' & [<-|Hin] & Hp'); [congruence|]. exists p'. split; assumption.
    + rewrite fold_macro_none. split; [intros _; exists p; split; [left|]; auto | reflexivity].
Qed.

Lemma bad_part_cons (p : list Z) (ps : list (list Z)) :
  (exists q, In q (p :: ps) /\ capitalize q = None) <->
  capitalize p = None \/ exists q, In q ps /\ capitalize q = None.
Proof.
  split.
  - intros (q & [<-|Hin] & Hq); [left; exact Hq | right; eauto].
  - intros [Hp | (q & Hin & Hq)]; [exists p; split; [left|]; auto | exists q; split; [right|]; auto].
Qed.

Lemma capitalize_cons_none (c : Z) (p : list Z) : capitalize (c :: p) = None <-> 128 <= c.
Proof.
  simpl. destruct (Z.ltb_spec c 128) as [Hc|Hc]; split; intros E; try discriminate; try lia; reflexivity.
Qed.

Lemma split_cons_shape (f : list Z) : exists p ps, split_underscore f = p :: ps.
Proof.
  destruct f as [|c r]; simpl; [eauto|].
  destruct (Z.eq_dec c underscore); [eauto|]. destruct (split_underscore r); eauto.
Qed.

Lemma ends_u_cons (c : Z) (r : list Z) :
  (exists l, c :: r = l ++ [95]) <-> (c = 95 /\ r = []) \/ (exists l, r = l ++ [95]).
Proof.
  split.
  - intros [[|a l] E]; simpl in E; injection E as -> E; [left; auto | right; eauto].
  - intros [[-> ->] | [l ->]]; [exists []; reflexivity | exists (c :: l); reflexivity].
Qed.

Lemma has_uu_cons (c : Z) (r : list Z) :
  (exists l1 l2, c :: r = l1 ++ 95 :: 95 :: l2) <->
  (c = 95 /\ exists l2, r = 95 :: l2) \/ (exists l1 l2, r = l1 ++ 95 :: 95 :: l2).
Proof.
  split.
  - intros [[|a l1] [l2 E]]; simpl in E; injection E as -> E; [left; eauto | right; eauto].
  - intros [[-> [l2 ->]] | [l1 [l2 ->]]]; [exists [], l2; reflexivity | exists (c :: l1), l2; reflexivity].
Qed.

Lemma has_u_wide_cons (c : Z) (r : list Z) :
  (exists l c' r', c :: r = l ++ 95 :: c' :: r' /\ 128 <= c') <->
  (c = 95 /\ exists c' r', r = c' :: r' /\ 128 <= c') \/
  (exists l c' r', r = l ++ 95 :: c' :: r' /\ 128 <= c').
Proof.
  split.
  - intros [[|a l] (c' & r' & E & H)]; simpl in E; injection E as -> E; [left; eauto | right; eauto].
  - intros [[-> (c' & r' & -> & Hw)] | (l & c' & r' & -> & Hw)];
      [exists [], c', r'; auto | exists (c :: l), c', r'; auto].
Qed.

Lemma starts_wide_cons (c : Z) (r : list Z) :
  (exists c' r', c :: r = c' :: r' /\ 128 <= c') <-> 128 <= c.
Proof.
  split; [intros (c' & r' & E & H); injection E as -> ->; exact H | intros H; eauto].
Qed.

Lemma split_bad_part (f : list Z) :
  ((exists p, In p (split_underscore f) /\ capitalize p = None) <->
     f = [] \/ (exists r, f = 95 :: r) \/ (exists l, f = l ++ [95]) \/
     (exists l1 l2, f = l1 ++ 95 :: 95 :: l2) \/
     (exists c r, f = c :: r /\ 128 <= c) \/
     (exists l c r, f = l ++ 95 :: c :: r /\ 128 <= c)) /\
  ((exists p, In p (tl (split_underscore f)) /\ capitalize p = None) <->
     (exists l, f = l ++ [95]) \/ (exists l1 l2, f = l1 ++ 95 :: 95 :: l2) \/
     (exists l c r, f = l ++ 95 :: c :: r /\ 128 <= c)).
Proof.
  induction f as [|c r [IHe IHf]].
  - simpl. split.
    + split; [intros _; left; reflexivity|]. intros _. exists []. split; [left|]; reflexivity.
    + split; [intros (p & [] & _)|].
      intros [[l E] | [(l1 & l2 & E) | (l & c & r & E & _)]];
        [destruct l | destruct l1 | destruct l]; discriminate.
  - rewrite ends_u_cons, has_uu_cons, has_u_wide_cons, starts_wide_cons. simpl.
    destruct (Z.eq_dec c underscore) as [Hc|Hc]; unfold underscore in Hc.
    + subst c. simpl. rewrite IHe.
      split; [split; [intros _; right; left; eauto | intros _; exists []; split; [left|]; reflexivity]|].
      assert (95 = 95) by reflexivity. split; [intros H'|intros H']; tauto.
    + destruct (split_cons_shape r) as (p & ps & E). rewrite E in *.
      cbv beta iota delta [tl] in *.
      rewrite bad_part_cons, capitalize_cons_none, IHf.
      assert (A1 : c :: r <> []) by discriminate.
      assert (A2 : ~ exists r0, c :: r = 95 :: r0) by (intros [r0 E']; injection E' as E' _; contradiction).
      split; split; intros H'; tauto.
Qed.

Lemma ascii_upper_underscore (c : Z) : ascii_upper c = 95 -> c = 95.
Proof. unfold ascii_upper. destruct (_ && _) eqn:E; [apply andb_true_iff in E; lia | auto]. Qed.

Lemma split_parts_no_underscore (f : list Z) :
  forall p, In p (split_underscore f) -> ~ In 95 p.
Proof.
  induction f as [|c r IH]; simpl; intros p Hp.
  - destruct Hp as [<-|[]]. simpl. tauto.
  - destruct (Z.eq_dec c underscore) as [Hc|Hc].
    + destruct Hp as [<-|Hp]; [simpl; tauto | exact (IH p Hp)].
    + destruct (split_cons_shape r) as (q & qs & E). rewrite E in *.
      destruct Hp as [<-|Hp].
      * intros [H|H]; [unfold underscore in Hc; congruence | apply (IH q); [left; reflexivity | exact H]].
      * apply IH. right. exact Hp.
Qed.

Lemma split_lengths (f : list Z) :
  (length f + 1 = list_sum (map (fun p => S (length p)) (split_underscore f)))%nat /\
  (count_occ Z.eq_dec f 95%Z + 1 = length (split_underscore f))%nat.
Proof.
  induction f as [|c r [IH1 IH2]]; simpl; [auto|].
  destruct (Z.eq_dec c underscore) as [Hc|Hc]; unfold underscore in Hc; simpl.
  - subst c. rewrite <- IH1, <- IH2. destruct (Z.eq_dec 95 95); [|congruence]. lia.
  - destruct (split_cons_shape r) as (q & qs & E). rewrite E in *. simpl in *.
    destruct (Z.eq_dec c 95); [congruence|]. lia.
Qed.

Lemma fold_macro_some (parts : list (list Z)) : forall acc n,
  fold_left fold_step parts (Some acc) = Some n ->
  length n = (length acc + list_sum (map (@length Z) parts))%nat /\
  (~ In 95 acc -> (forall p, In p parts -> ~ In 95 p) -> ~ In 95 n).
Proof.
  induction parts as [|p ps IH]; intros acc n H; simpl in H.
  - injection H as <-. simpl. split; [lia|auto].
  - destruct p as [|c p]; simpl in H; [rewrite fold_macro_none in H; discriminate|].
    destruct (c <? 128); [|rewrite fold_macro_none in H; discriminate].
    destruct (IH _ _ H) as [Hl Hu]. split.
    + rewrite Hl, length_app. simpl. lia.
    + intros Ha Hp. apply Hu; [|intros q Hq; apply Hp; right; exact Hq].
      rewrite in_app_iff. intros [H1|[H1|H1]]; [exact (Ha H1)| |].
      * apply (Hp (c :: p)); [left; reflexivity|]. left. apply ascii_upper_underscore. exact H1.
      * apply (Hp (c :: p)); [left; reflexivity|]. right. exact H1.
Qed.

End Macro.

(** The opcode macro panics while building the struct name exactly when the
    function name is empty, starts or ends with an underscore, contains two
    underscores in a row, or has a part (at its start or after an underscore)
    whose first [char] is not ASCII. *)
Theorem struct_name_panics (f : list Z) :
  OpcodeMacro.struct_name f = None <->
  f = [] \/ (exists r, f = 95 :: r) \/ (exists l, f = l ++ [95]) \/
  (exists l1 l2, f = l1 ++ 95 :: 95 :: l2) \/
  (exists c r, f = c :: r /\ 128 <= c) \/
  (exists l c r, f = l ++ 95 :: c :: r /\ 128 <= c).
Proof.
  unfold OpcodeMacro.struct_name.
  rewrite fold_macro_some_none. apply split_bad_part.
Qed.

(** A struct name built by the opcode macro contains no underscore and has
    the length of the function name minus its underscores. *)
Theorem struct_name_drops_underscores (f n : list Z) :
  OpcodeMacro.struct_name f = Some n ->
  ~ In 95 n /\ (length n + count_occ Z.eq_dec f 95%Z = length f)%nat.
Proof.
  unfold OpcodeMacro.struct_name. intros H.
  destruct (fold_macro_some _ _ _ H) as [Hl Hu]. split.
  - apply Hu; [simpl; tauto | apply split_parts_no_underscore].
  - destruct (split_lengths f) as [H1 H2]. simpl in Hl.
    assert (Hs : forall ps : list (list Z),
      list_sum (map (fun p => S (length p)) ps) = (list_sum (map (@length Z) ps) + length ps)%nat).
    { induction ps; simpl; lia. }
    rewrite Hs in H1. lia.
Qed.

(** * Witnesses of the further properties *)

Lemma bcd_digits_witness :
  (0 <= register arith_example.(state) 0 < 256 /\ length arith_example.(state).(ram) = 4096%nat /\
   0 <= arith_example.(state).(index_register) /\ arith_example.(state).(index_register) + 2 < 4096 /\
   0 <= register high_index_example.(state) 0 < 256 /\
   length high_index_example.(state).(ram) = 4096%nat /\
   0 <= high_index_example.(state).(index_register) /\
   4094 <= high_index_example.(state).(index_register)) /\
  (exists r', execute 0 (BCD 0) arith_example =
                Ok tt (mkMachine (set_ram arith_example.(state) r') blank None []) /\
     r' !! 0%nat = Some 2 /\ r' !! 1%nat = Some 0 /\ r' !! 2%nat = Some 0) /\
  (exists m', execute 0 (BCD 0) high_index_example = Fail Panic m').
Proof.
  assert (H : 0 <= register arith_example.(state) 0 < 256 /\ length arith_example.(state).(ram) = 4096%nat /\
   0 <= arith_example.(state).(index_register) /\ arith_example.(state).(index_register) + 2 < 4096 /\
   0 <= register high_index_example.(state) 0 < 256 /\
   length high_index_example.(state).(ram) = 4096%nat /\
   0 <= high_index_example.(state).(index_register) /\
   4094 <= high_index_example.(state).(index_register)).
  { vm_compute. repeat split; discriminate. }
  destruct H as (H1 & H2 & H3 & H4 & H5 & H6 & H7 & H8).
  split; [repeat split; assumption|]. split.
  - destruct (proj1 (bcd_digits 0 arith_example 0 H1 H2 H3) H4) as (r' & E & A & B & C & _).
    exists r'. split; [exact E|]. split; [exact A|]. split; [exact B|exact C].
  - exact (proj2 (bcd_digits 0 high_index_example 0 H5 H6 H7) H8).
Defined.

Lemma call_then_ret_witness :
  (wf_stack call_example.(state) /\ call_example.(state).(stack_pointer) < 255) /\
  exists m1,
    execute 0 (CALL 0x300) call_example = Ok tt m1 /\
    m1.(state).(program_counter) = 0x300 /\
    m1.(state).(stack_pointer) = 1 /\
    m1.(state).(stack) !! 1%nat = Some 0x200 /\
    execute 0 RET m1 =
      Ok tt (mkMachine (set_stack call_example.(state) m1.(state).(stack)) blank None []).
Proof.
  assert (H1 : wf_stack call_example.(state)) by (split; [reflexivity | vm_compute; split; [discriminate | reflexivity]]).
  assert (H2 : call_example.(state).(stack_pointer) < 255) by reflexivity.
  split; [split; assumption|].
  destruct (call_then_ret 0 0 0x300 call_example H1 H2) as (m1 & E & A & B & C & D).
  exists m1. split; [exact E|]. split; [exact A|]. split; [exact B|]. split; [exact C|exact D].
Defined.

Lemma stack_limits_witness :
  (full_stack_example.(state).(stack_pointer) = 255 /\
   call_example.(state).(stack_pointer) = 0 /\ length call_example.(state).(stack) = 256%nat) /\
  execute 0 (CALL 0x300) full_stack_example = Fail Panic full_stack_example /\
  execute 0 RET call_example =
    Fail Panic (mkMachine (set_pc call_example.(state) 0) blank None []).
Proof.
  assert (H1 : full_stack_example.(state).(stack_pointer) = 255) by reflexivity.
  assert (H2 : call_example.(state).(stack_pointer) = 0) by reflexivity.
  assert (H3 : length call_example.(state).(stack) = 256%nat) by reflexivity.
  split; [split; [|split]; assumption|]. split.
  - exact (proj1 (stack_limits 0 0x300 full_stack_example) H1).
  - exact (proj2 (stack_limits 0 0x300 call_example) H2 H3).
Defined.

Lemma fetch_out_of_memory_witness :
  (length pc_end_example.(state).(ram) = 4096%nat /\ 4095 <= pc_end_example.(state).(program_counter)) /\
  cycle inp0 pc_end_example = Fail Panic pc_end_example.
Proof.
  assert (H1 : length pc_end_example.(state).(ram) = 4096%nat) by reflexivity.
  assert (H2 : 4095 <= pc_end_example.(state).(program_counter)) by (vm_compute; discriminate).
  split; [split; assumption|]. exact (fetch_out_of_memory inp0 pc_end_example H1 H2).
Defined.

Lemma skip_pairs_witness :
  arith_example.(state).(program_counter) + 2 < 65536 /\
  execute 0 (SE_NN 0 200) arith_example =
    Ok tt (mkMachine (set_pc arith_example.(state) 0x202) blank None []) /\
  execute 0 (SNE_XY 0 1) arith_example =
    Ok tt (mkMachine (set_pc arith_example.(state) 0x202) blank None []).
Proof.
  assert (H : arith_example.(state).(program_counter) + 2 < 65536) by reflexivity.
  split; [exact H|].
  destruct (skip_pairs 0 0 1 200 arith_example H) as (A & _ & _ & B & _).
  split; [exact A | exact B].
Defined.

Lemma logic_ops_keep_vf_witness :
  (0 <= 0 < 15 /\ 0 <= 1 /\ regs_ok arith_example) /\
  exists m', execute 0 (XOR_XY 0 1) arith_example = Ok tt m' /\
    register m'.(state) 0 = Z.lxor 200 100 /\
    register m'.(state) 15 = register arith_example.(state) 15 /\
    register m'.(state) 1 = 100.
Proof.
  assert (H1 : 0 <= 0 < 15) by lia. assert (H2 : 0 <= 1) by lia.
  assert (H3 : regs_ok arith_example) by reflexivity.
  split; [split; [|split]; assumption|].
  destruct (logic_ops_keep_vf 0 0 1 0 arith_example H1 H2 H3 (XOR_XY 0 1)
              (Z.lxor (register arith_example.(state) 0) (register arith_example.(state) 1))
              ltac:(right; right; right; reflexivity)) as (m' & E & A & B & C & _).
  exists m'. split; [exact E|]. split; [exact A|]. split; [exact B|].
  exact (C 1 ltac:(lia) ltac:(lia)).
Defined.

Lemma add_i_semantics_witness :
  (0 <= 0 < 16 /\ regs_ok arith_example) /\
  exists m', execute 0 (ADD_I 0) arith_example = Ok tt m' /\
    m'.(state).(index_register) = 200 /\ register m'.(state) 15 = 0.
Proof.
  assert (H1 : 0 <= 0 < 16) by lia. assert (H2 : regs_ok arith_example) by reflexivity.
  split; [split; assumption|].
  destruct (add_i_semantics 0 0 arith_example H1 H2) as (m' & E & A & B & _).
  exists m'. split; [exact E|]. split; [exact A|exact B].
Defined.

Lemma draw_instruction_witness :
  (0 <= high_index_example.(state).(index_register) /\
   Z.of_nat (length high_index_example.(state).(ram)) < high_index_example.(state).(index_register) + 5 /\
   0 <= arith_example.(state).(index_register) /\
   arith_example.(state).(index_register) + 5 <= Z.of_nat (length arith_example.(state).(ram))) /\
  execute 0 (DRW 2 2 5) high_index_example = Fail Panic high_index_example /\
  execute 0 (DRW 2 2 5) arith_example =
    match display_draw blank 0 0 (firstn 5 arith_example.(state).(ram)) with
    | Some (d', flag) => Ok tt (mkMachine (set_flag arith_example.(state) flag) d' None [])
    | None => Fail IoError arith_example
    end.
Proof.
  assert (H1 : 0 <= high_index_example.(state).(index_register)) by (vm_compute; discriminate).
  assert (H2 : Z.of_nat (length high_index_example.(state).(ram)) <
               high_index_example.(state).(index_register) + 5) by reflexivity.
  assert (H3 : 0 <= arith_example.(state).(index_register)) by (vm_compute; discriminate).
  assert (H4 : arith_example.(state).(index_register) + 5 <=
               Z.of_nat (length arith_example.(state).(ram))) by (vm_compute; discriminate).
  split; [split; [|split; [|split]]; assumption|]. split.
  - exact (proj1 (draw_instruction 0 2 2 5 high_index_example H1 ltac:(lia)) H2).
  - exact (proj2 (draw_instruction 0 2 2 5 arith_example H3 ltac:(lia)) H4).
Defined.

Lemma delay_timer_roundtrip_witness :
  (0 <= 1 < 16 /\ regs_ok arith_example) /\
  exists m1 m2,
    execute 0 (LD_DT_VX 0) arith_example = Ok tt m1 /\ m1.(state).(delay_timer) = 200 /\
    execute 0 (LD_VX_DT 1) m1 = Ok tt m2 /\ register m2.(state) 1 = 200 /\
    register m2.(state) 0 = 200.
Proof.
  assert (H1 : 0 <= 1 < 16) by lia. assert (H2 : regs_ok arith_example) by reflexivity.
  split; [split; assumption|].
  destruct (delay_timer_roundtrip 0 0 0 1 arith_example H1 H2) as (m1 & m2 & A & B & C & D & E).
  exists m1, m2. split; [exact A|]. split; [exact B|]. split; [exact C|]. split; [exact D|].
  exact (E 0 ltac:(lia) ltac:(lia)).
Defined.

Lemma store_load_keep_index_witness :
  (0 <= 15 < 16 /\ regs_ok store_example /\ length store_example.(state).(ram) = 4096%nat /\
   0 <= store_example.(state).(index_register) /\ store_example.(state).(index_register) + 15 < 4096) /\
  (exists m1, execute 0 (STORE 15) store_example = Ok tt m1 /\
     m1.(state).(index_register) = 0x300 /\
     m1.(state).(ram) !! 0x2FF%nat = store_example.(state).(ram) !! 0x2FF%nat) /\
  (exists m2, execute 0 (LOAD 15) store_example = Ok tt m2 /\
     m2.(state).(index_register) = 0x300 /\ m2.(state).(ram) = store_example.(state).(ram)).
Proof.
  assert (H1 : 0 <= 15 < 16) by lia. assert (H2 : regs_ok store_example) by reflexivity.
  assert (H3 : length store_example.(state).(ram) = 4096%nat) by reflexivity.
  assert (H4 : 0 <= store_example.(state).(index_register)) by (vm_compute; discriminate).
  assert (H5 : store_example.(state).(index_register) + 15 < 4096) by reflexivity.
  split; [repeat split; assumption || lia|].
  destruct (store_load_keep_index 0 0 store_example 15 H1 H2 H3 H4 H5)
    as [(m1 & A & B & _ & C) (m2 & D & E & F & _)].
  split.
  - exists m1. split; [exact A|]. split; [exact B|]. apply C. left. vm_compute. lia.
  - exists m2. split; [exact D|]. split; [exact E|exact F].
Defined.

Lemma unknown_opcodes_witness :
  (0 <= 0x81 < 256 /\ 0 <= 0x28 < 256) /\ decode_word 0x81 0x28 = None /\
  (0 <= 0x81 < 256 /\ 0 <= 0x24 < 256) /\ decode_word 0x81 0x24 <> None.
Proof.
  assert (H1 : 0 <= 0x81 < 256) by lia. assert (H2 : 0 <= 0x28 < 256) by lia.
  assert (H3 : 0 <= 0x24 < 256) by lia.
  split; [split; assumption|]. split.
  - apply (proj2 (unknown_opcodes 0x81 0x28 H1 H2)). right; right; right; left.
    split; [reflexivity|]. split; [vm_compute; discriminate | vm_compute; discriminate].
  - split; [split; assumption|]. intros E.
    apply (proj1 (unknown_opcodes 0x81 0x24 H1 H3)) in E.
    vm_compute in E. intuition discriminate.
Defined.

Lemma load_program_bounds_witness :
  length default_state.(ram) = 4096%nat /\
  load_program default_state (repeat 0 3585) = None /\
  exists s', load_program default_state [0x60; 0x05] = Some s' /\
    s'.(ram) !! 600%nat = default_state.(ram) !! 600%nat.
Proof.
  assert (H : length default_state.(ram) = 4096%nat) by reflexivity.
  split; [exact H|]. split.
  - apply (proj2 (proj1 (load_program_bounds default_state (repeat 0 3585) H))).
    rewrite repeat_length. lia.
  - destruct (load_program default_state [0x60; 0x05]) as [s'|] eqn:E.
    + exists s'. split; [reflexivity|].
      apply (proj2 (proj2 (load_program_bounds default_state [0x60; 0x05] H) s' E)).
      right. simpl. lia.
    + vm_compute in E. discriminate E.
Defined.

Lemma draw_column_overflow_witness :
  (249 <= 250 <= 255 /\ 0 <= 0 <= 28 /\ [0xFF] <> []) /\ CrossTerm.draw blank 250 0 [0xFF] = None.
Proof.
  assert (H1 : 249 <= 250 <= 255) by lia. assert (H2 : 0 <= 0 <= 28) by lia.
  assert (H3 : [0xFF] <> []) by discriminate.
  split; [split; [|split]; assumption|].
  exact (draw_column_overflow blank 250 0 [0xFF] H1 H2 H3).
Defined.

Lemma draw_twice_restores_witness :
  exists disp' f,
    (length blank = 2048%nat /\ CrossTerm.draw blank 3 4 [0xF0; 0x90] = Some (disp', f)) /\
    exists f', CrossTerm.draw disp' 3 4 [0xF0; 0x90] = Some (blank, f').
Proof.
  assert (H : length blank = 2048%nat) by reflexivity.
  destruct (CrossTerm.draw blank 3 4 [0xF0; 0x90]) as [[disp' f]|] eqn:E.
  - exists disp', f. split; [split; [exact H|reflexivity]|].
    exact (draw_twice_restores blank disp' 3 4 [0xF0; 0x90] f H E).
  - vm_compute in E. discriminate E.
Defined.

Lemma keymap_bijective_witness :
  (exists c, Keyboard.crossterm_keymap c = Some 0xA) /\
  (forall c, Keyboard.crossterm_keymap c = Some 0xA -> c = Keyboard.Char "z"%char).
Proof.
  split.
  - apply (proj1 (proj2 keymap_bijective 0xA)). lia.
  - intros c H. exact (proj1 keymap_bijective c (Keyboard.Char "z"%char) 0xA H eq_refl).
Defined.

Lemma key_press_release_witness :
  Keyboard.crossterm_keymap (Keyboard.Char "q"%char) = Some 4 /\
  Keyboard.is_key_down (Keyboard.handle_event Keyboard.new
    (Keyboard.Key (Keyboard.Char "q"%char) Keyboard.Press)) 4 = Some true /\
  (Keyboard.handle_event Keyboard.new
    (Keyboard.Key (Keyboard.Char "q"%char) Keyboard.Press)).(Keyboard.last_key_pressed) = Some 4 /\
  Keyboard.is_key_down (Keyboard.handle_event Keyboard.new
    (Keyboard.Key (Keyboard.Char "q"%char) Keyboard.Press)) 5 = Some false.
Proof.
  assert (H : Keyboard.crossterm_keymap (Keyboard.Char "q"%char) = Some 4) by reflexivity.
  split; [exact H|].
  destruct (key_press_release Keyboard.new (Keyboard.Char "q"%char) 4 H) as (A & B & _ & _ & C & _).
  split; [exact A|]. split; [exact B|].
  exact (proj1 (C 5 ltac:(lia) ltac:(lia))).
Defined.

Lemma update_reports_window_press_witness :
  exists kb',
    Keyboard.update_keystates (Keyboard.mkKeyboard 0 (Some 3))
      [Keyboard.Got (Keyboard.Key (Keyboard.Char "w"%char) Keyboard.Press);
       Keyboard.Got (Keyboard.Key (Keyboard.Char "w"%char) Keyboard.Release)] = Some kb' /\
    (kb'.(Keyboard.last_key_pressed) = None \/
     exists c k, Keyboard.crossterm_keymap c = Some k /\ kb'.(Keyboard.last_key_pressed) = Some k /\
       In (Keyboard.Got (Keyboard.Key c Keyboard.Press))
         [Keyboard.Got (Keyboard.Key (Keyboard.Char "w"%char) Keyboard.Press);
          Keyboard.Got (Keyboard.Key (Keyboard.Char "w"%char) Keyboard.Release)]).
Proof.
  eexists. split; [reflexivity|]. apply update_reports_window_press with (kb := Keyboard.mkKeyboard 0 (Some 3)).
  reflexivity.
Defined.

Lemma selection_stays_visible_witness :
  (3 <= 4 /\ 0 < 5 /\ 0 <= 0 <= 1 /\ 1 < 5 /\ 1 < 0 + 4 - 2) /\
  exists res, Selector.nav_key 5 4 1 0 Keyboard.Down = Some res /\
    match res with
    | Selector.Stay sel' scroll' => 0 <= scroll' <= sel' /\ sel' < 5 /\ sel' < scroll' + 4 - 2
    | Selector.Selected i => i = 1
    | Selector.Interrupted => True
    end.
Proof.
  split; [lia|].
  apply (selection_stays_visible 5 4 1 0 Keyboard.Down); lia.
Defined.

Lemma empty_rom_list_panics_witness :
  In Keyboard.Enter [Keyboard.Up; Keyboard.Down; Keyboard.Enter;
                     Keyboard.Char "w"%char; Keyboard.Char "s"%char] /\
  Selector.nav_key 0 24 0 0 Keyboard.Enter = None.
Proof.
  assert (H : In Keyboard.Enter [Keyboard.Up; Keyboard.Down; Keyboard.Enter;
                                 Keyboard.Char "w"%char; Keyboard.Char "s"%char])
    by (right; right; left; reflexivity).
  split; [exact H|]. exact (empty_rom_list_panics 24 0 Keyboard.Enter H).
Defined.

Lemma timer_catches_up_witness :
  (0 < 10 /\ 0 <= 35) /\ snd (Timer.ticks 5 (Timer.mkTimer 10 0) 35) = 3%nat.
Proof.
  assert (H1 : 0 < Timer.interval (Timer.mkTimer 10 0)) by (simpl; lia).
  assert (H2 : Timer.last_tick (Timer.mkTimer 10 0) <= 35) by (simpl; lia).
  split; [lia|].
  pose proof (timer_catches_up 5 (Timer.mkTimer 10 0) 35 H1 H2) as T.
  destruct (Timer.ticks 5 (Timer.mkTimer 10 0) 35) as [t' k]. destruct T as [-> _].
  reflexivity.
Defined.

Lemma struct_name_panics_witness :
  (* a__b, _cls and a_ö *)
  OpcodeMacro.struct_name [97; 95; 95; 98] = None /\
  OpcodeMacro.struct_name [95; 99; 108; 115] = None /\
  OpcodeMacro.struct_name [97; 95; 246] = None.
Proof.
  split; [|split]; apply struct_name_panics.
  - right; right; right; left. exists [97], [98]. reflexivity.
  - right; left. exists [99; 108; 115]. reflexivity.
  - right; right; right; right; right. exists [97], 246, []. split; [reflexivity | lia].
Defined.

Lemma struct_name_drops_underscores_witness :
  (* ld_vx *)
  exists n, OpcodeMacro.struct_name [108; 100; 95; 118; 120] = Some n /\
    ~ In 95 n /\ length n = 4%nat.
Proof.
  destruct (OpcodeMacro.struct_name [108; 100; 95; 118; 120]) as [n|] eqn:E.
  - exists n. split; [reflexivity|].
    destruct (struct_name_drops_underscores _ n E) as [A B].
    split; [exact A|]. simpl in B. lia.
  - vm_compute in E. discriminate E.
Defined.
